(** * FloWaveNet, [train_apex.py]: the distributed training script

    A shallow embedding of the orchestration script [train_apex.py] and the
    properties of its checkpointing, gating, logging and scheduling.

    The script drives PyTorch, Apex, NumPy and the repository's own model
    and data modules.  Those are black boxes for the script, so they enter
    the development as the fields of the class [TorchLib]; what the script
    itself computes (paths, control flow, the order of calls, the state it
    threads through the epochs) is translated function by function.

    Standard output ([print], the [tqdm] progress bar and the running
    display averages that only feed it) is not modelled. *)

From Stdlib Require Import ZArith QArith List String Ascii Lia.
From stdpp Require Import base tactics option list strings pretty gmap.

Local Open Scope Z_scope.

(** ** Python built-ins used by the script *)

Module Py.

(** The exceptions the script can meet. *)
Inductive exn :=
| RuntimeError | ZeroDivisionError | ValueError
| FileNotFoundError | UnpicklingError | StopIteration.

Inductive result (A : Type) :=
| Ok (a : A)
| Raise (e : exn).
Arguments Ok {A} a.
Arguments Raise {A} e.

Definition is_ok {A} (r : result A) : bool :=
  match r with Ok _ => true | Raise _ => false end.

(** [s.startswith('/')] and [s.endswith('/')]. *)
Definition startswith_sep (s : string) : bool :=
  match s with
  | String c _ => bool_decide (c = "/"%char)
  | EmptyString => false
  end.

Fixpoint endswith_sep (s : string) : bool :=
  match s with
  | EmptyString => false
  | String c EmptyString => bool_decide (c = "/"%char)
  | String _ s' => endswith_sep s'
  end.

Definition is_empty (s : string) : bool :=
  match s with EmptyString => true | _ => false end.

(** One round of the loop of [posixpath.join]. *)
Definition join_step (path b : string) : string :=
  if startswith_sep b then b
  else if is_empty path || endswith_sep path then path +:+ b
  else path +:+ "/" +:+ b.

(** [os.path.join(a, *p)]. *)
Definition os_path_join (a : string) (p : list string) : string :=
  fold_left join_step p a.

Fixpoint zeros (n : nat) : string :=
  match n with
  | O => EmptyString
  | S n' => String "0"%char (zeros n')
  end.

Definition zfill (width : nat) (digits : string) : string :=
  zeros (width - String.length digits) +:+ digits.

(** ["{:09d}".format(n)]: sign-aware zero padding to nine characters. *)
Definition format_09d (n : Z) : string :=
  if n <? 0 then "-" +:+ zfill 8 (pretty (- n)) else zfill 9 (pretty n).

(** ["{}".format(n)] for an integer. *)
Definition format_int (n : Z) : string := pretty n.

(** [s[n:]] for a literal [n >= 0]. *)
Fixpoint str_from (n : nat) (s : string) : string :=
  match n, s with
  | O, _ => s
  | S n', String _ s' => str_from n' s'
  | S _, EmptyString => EmptyString
  end.

(** [l[:n]]: a negative [n] counts from the end. *)
Definition slice_to {A} (n : Z) (l : list A) : list A :=
  if 0 <=? n then take (Z.to_nat n) l
  else take (length l - Z.to_nat (- n)) l.

(** [range(lo, hi)]. *)
Definition range (lo hi : Z) : list Z := seqZ lo (hi - lo).

(** [d[k] = v] on a [dict]/[OrderedDict]: an existing key keeps its
    position, a new key goes last. *)
Fixpoint dict_set {V} (k : string) (v : V) (d : list (string * V))
  : list (string * V) :=
  match d with
  | [] => [(k, v)]
  | (k', v') :: d' =>
      if String.eqb k k' then (k', v) :: d' else (k', v') :: dict_set k v d'
  end.

(** A dictionary entry whose key lost its first seven characters. *)
Definition strip_key {V} (kv : string * V) : string * V :=
  (str_from 7 (fst kv), snd kv).

(** [d.get(k)] on a [dict]. *)
Fixpoint dict_get {V} (k : string) (d : list (string * V)) : option V :=
  match d with
  | [] => None
  | (k', v) :: d' => if String.eqb k k' then Some v else dict_get k d'
  end.

End Py.
Export Py.

(** ** Apex's optimisation levels

    [amp.initialize] takes an [opt_level]; Apex's front end fixes what each
    level means (classes [O0] .. [O3] of [apex/amp/frontend.py]).  The table
    is Apex's, not the script's: the script only chooses the level. *)

Module Apex.









End Apex.

(** ** Samplers and loaders

    [torch.utils.data.distributed.DistributedSampler]: replica count and
    rank come from the process group, [epoch] from [set_epoch]. *)
Record Sampler (D : Type) := {
  smp_dataset : D;
  smp_num_replicas : Z;
  smp_rank : Z;
  smp_epoch : Z
}.
Arguments smp_dataset {D} _.
Arguments smp_num_replicas {D} _.
Arguments smp_rank {D} _.
Arguments smp_epoch {D} _.

Inductive collate := collate_fn | collate_fn_synthesize.

(** The arguments of a [DataLoader]. *)
Record Loader (D : Type) := {
  ld_dataset : D;
  ld_batch_size : Z;
  ld_sampler : option (Sampler D);
  ld_drop_last : bool;
  ld_collate : collate;
  ld_num_workers : Z;
  ld_pin_memory : bool
}.
Arguments ld_dataset {D} _.
Arguments ld_batch_size {D} _.
Arguments ld_sampler {D} _.
Arguments ld_drop_last {D} _.
Arguments ld_collate {D} _.
Arguments ld_num_workers {D} _.
Arguments ld_pin_memory {D} _.

(** ** The libraries the script calls

    Every field is a call the script makes into PyTorch, Apex, NumPy,
    librosa or the repository's [model.py] and [data.py]; objects that
    Python mutates in place are returned. *)

Class TorchLib := {
  tensor : Type;
  float : Type;
  model : Type;
  optimizer : Type;
  opt_state : Type;
  dataset : Type;
  rng : Type;
  (* Python floats *)
  float_of_Q : Q -> float;                   (* a float literal *)
  fadd : float -> float -> float;
  fmul : float -> float -> float;
  fdiv_int : float -> Z -> float;            (* x / n for n <> 0 *)
  fpow : float -> Z -> float;                (* x ** n *)
  fgt : float -> float -> bool;              (* x > y *)
  np_min : list float -> float;              (* np.min of a non-empty list *)
  (* tensors *)
  to_device : bool -> tensor -> tensor;
  t_mean : tensor -> tensor;
  t_add : tensor -> tensor -> tensor;
  t_neg : tensor -> tensor;
  t_item : tensor -> float;
  normal_sample : tensor -> rng -> tensor * rng;
  backward : tensor -> model -> model;
  (* data.py *)
  ljspeech_dataset : string -> bool -> float -> dataset;
  (* the batches of one pass over a loader; len(loader) is their number *)
  loader_batches : Loader dataset -> list (tensor * tensor);
  (* model.py and nn.Module *)
  flowavenet : Z -> Z -> Z -> Z -> Z -> Z -> bool -> bool -> Z -> model;
  model_to : bool -> model -> model;
  model_set_mode : bool -> model -> model;   (* train() / eval() *)
  model_forward : model -> tensor -> tensor -> model * (tensor * tensor);
  model_reverse : model -> tensor -> tensor -> tensor;
  model_state_dict : model -> list (string * tensor);
  model_load_state_dict : list (string * tensor) -> model -> option model;
  (* torch.optim *)
  adam : model -> float -> optimizer;
  opt_get_lr : optimizer -> float;
  opt_set_lr : float -> optimizer -> optimizer;
  opt_zero_grad : optimizer -> model -> model;
  opt_step : optimizer -> model -> optimizer * model;
  opt_state_dict : optimizer -> opt_state;
  opt_load_state_dict : opt_state -> optimizer -> option optimizer;
  clip_grad_norm : float -> optimizer -> model -> model;
  (* apex *)
  amp_initialize : model -> optimizer -> string -> model * optimizer;
  amp_scale_loss : tensor -> optimizer -> tensor;
  amp_unscale : optimizer -> model -> optimizer * model;
  ddp_wrap : model -> model
}.

(** ** Data of the script *)

Section Script.
Context {L : TorchLib}.

(** The namespace [parser.parse_args()] returns. *)
Record Args := {
  local_rank : Z;
  data_path : string;
  sample_path : string;
  save : string;
  load_step : Z;
  log : string;
  model_name : string;
  epochs : Z;
  batch_size : Z;
  learning_rate : float;
  loss : string;
  n_layer : Z;
  n_flow : Z;
  n_block : Z;
  cin_channels : Z;
  hidden_channels : Z;
  block_per_split : Z;
  num_workers : Z
}.

(** What the process reads from its environment:
    [int(os.environ['WORLD_SIZE'])] and [torch.cuda.is_available()]. *)
Record Env := {
  world_size : Z;
  use_cuda : bool
}.

(** [optim.lr_scheduler.StepLR]; its [state_dict()] is these fields. *)
Record Scheduler := {
  step_size : Z;
  gamma : float;
  base_lr : float;
  last_epoch : Z
}.

(** The dictionary [save_checkpoint] hands to [torch.save]. *)
Record Checkpoint := {
  ck_state_dict : list (string * tensor);
  ck_optimizer : opt_state;
  ck_scheduler : Scheduler;
  ck_global_step : Z;
  ck_global_epoch : Z
}.

Inductive jvalue :=
| JInt (n : Z)
| JStr (s : string)
| JFloat (x : float).

(** A file is the sequence of records written to it: a write replaces
    the sequence, an append adds to it. *)
Inductive chunk :=
| CkptChunk (ck : Checkpoint)
| NpyChunk (xs : list float)
| WavChunk (wav : tensor) (sr : Z)
| LineChunk (fields : list (string * jvalue)).

(** The calls whose order the properties speak of. *)
Inductive event :=
| EvParseArgs
| EvInitProcessGroup (backend : string) (ws rank : Z)
| EvSetDevice (d : Z)
| EvMakedirs (p : string)
| EvDataset (path : string) (train : bool)
| EvDistributedSampler (s : Sampler dataset)
| EvDataLoader (ld : Loader dataset)
| EvBuildModel (pretrained : bool)
| EvModelTo (cuda : bool)
| EvAdam (lr : float)
| EvStepLR (size : Z) (g : float)
| EvActNormInit
| EvAmpInitialize (opt_level : string)
| EvDistributedDataParallel
| EvTorchLoad (p : string)
| EvModelLoadStateDict (sd : list (string * tensor))
| EvOptimizerLoad
| EvSchedulerLoad
| EvNpLoad (p : string)
| EvSetEpoch (e : Z)
| EvModelTrain
| EvSchedulerStep
| EvZeroGrad
| EvForward (x c : tensor)
| EvBackward (t : tensor)
| EvClipGradNorm (max_norm : float)
| EvOptimizerStep
| EvGcCollect
| EvEvaluate
| EvTorchSave (p : string)
| EvSynthesize
| EvWriteWav (p : string)
| EvNpSave (p : string)
| EvLogWrite (p : string).

(** Everything outside the process, and the log of calls. *)
Record World := {
  fs : gmap string (list chunk);
  dirs : gset string;
  rng_state : rng;
  trace : list event
}.

(** The objects and globals of the process. *)
Record State := {
  st_model : model;
  st_optimizer : optimizer;
  st_scheduler : Scheduler;
  train_sampler : Sampler dataset;
  train_dataset : dataset;
  test_dataset : dataset;
  global_step : Z;
  global_epoch : Z
}.

(** The variables of the epoch loop. *)
Record Loop := {
  lp_state : State;
  test_loss : float;
  list_train_loss : list float;
  list_loss : list float
}.


(** ** The monad of the script: a world threaded through fallible calls *)

Definition M (A : Type) : Type := World -> result A * World.

Definition ret {A} (a : A) : M A := fun w => (Ok a, w).

Definition raise {A} (e : exn) : M A := fun w => (Raise e, w).

Definition bind {A B} (m : M A) (k : A -> M B) : M B :=
  fun w =>
    match m w with
    | (Ok a, w') => k a w'
    | (Raise e, w') => (Raise e, w')
    end.

Notation "'let!' x ':=' m 'in' k" := (bind m (fun x => k))
  (at level 10, x name, m at level 100, k at level 200).
Notation "'run!' m 'in' k" := (bind m (fun _ => k))
  (at level 10, m at level 100, k at level 200).

(** A [for] loop that carries its variables in [s]. *)
Fixpoint for_each {A S} (body : A -> S -> M S) (l : list A) (s : S) : M S :=
  match l with
  | [] => ret s
  | x :: l' => let! s' := body x s in for_each body l' s'
  end.

Definition emit (e : event) : M unit :=
  fun w => (Ok tt, {| fs := fs w; dirs := dirs w; rng_state := rng_state w;
                      trace := trace w ++ [e] |}).

(** Opening for writing replaces the file. *)
Definition write_file (p : string) (content : chunk) : M unit :=
  fun w => (Ok tt, {| fs := <[p := [content]]> (fs w); dirs := dirs w;
                      rng_state := rng_state w; trace := trace w |}).

(** Opening with mode ['a'] keeps what is there and creates the file
    when it is missing. *)
Definition append_file (p : string) (content : chunk) : M unit :=
  fun w => (Ok tt, {| fs := <[p := default [] (fs w !! p) ++ [content]]> (fs w);
                      dirs := dirs w; rng_state := rng_state w;
                      trace := trace w |}).

Definition read_file (p : string) : M (list chunk) :=
  fun w => match fs w !! p with
           | Some c => (Ok c, w)
           | None => (Raise FileNotFoundError, w)
           end.

(** [if not os.path.isdir(p): os.makedirs(p)]. *)
Definition ensure_dir (p : string) : M unit :=
  fun w =>
    if bool_decide (p ∈ dirs w) then (Ok tt, w)
    else (Ok tt, {| fs := fs w; dirs := {[p]} ∪ dirs w;
                    rng_state := rng_state w;
                    trace := trace w ++ [EvMakedirs p] |}).

(** [Normal(zeros, ones).sample()] with the shape of [x]. *)
Definition sample_like (x : tensor) : M tensor :=
  fun w => let r := normal_sample x (rng_state w) in
           (Ok (fst r), {| fs := fs w; dirs := dirs w; rng_state := snd r;
                           trace := trace w |}).

(** ** The script, function by function *)

Definition set_model (m : model) (st : State) : State :=
  {| st_model := m; st_optimizer := st_optimizer st;
     st_scheduler := st_scheduler st; train_sampler := train_sampler st;
     train_dataset := train_dataset st; test_dataset := test_dataset st;
     global_step := global_step st; global_epoch := global_epoch st |}.

Definition set_optimizer (o : optimizer) (st : State) : State :=
  {| st_model := st_model st; st_optimizer := o;
     st_scheduler := st_scheduler st; train_sampler := train_sampler st;
     train_dataset := train_dataset st; test_dataset := test_dataset st;
     global_step := global_step st; global_epoch := global_epoch st |}.

Definition set_scheduler (s : Scheduler) (st : State) : State :=
  {| st_model := st_model st; st_optimizer := st_optimizer st;
     st_scheduler := s; train_sampler := train_sampler st;
     train_dataset := train_dataset st; test_dataset := test_dataset st;
     global_step := global_step st; global_epoch := global_epoch st |}.

Definition set_sampler (s : Sampler dataset) (st : State) : State :=
  {| st_model := st_model st; st_optimizer := st_optimizer st;
     st_scheduler := st_scheduler st; train_sampler := s;
     train_dataset := train_dataset st; test_dataset := test_dataset st;
     global_step := global_step st; global_epoch := global_epoch st |}.

Definition set_globals (step epoch : Z) (st : State) : State :=
  {| st_model := st_model st; st_optimizer := st_optimizer st;
     st_scheduler := st_scheduler st; train_sampler := train_sampler st;
     train_dataset := train_dataset st; test_dataset := test_dataset st;
     global_step := step; global_epoch := epoch |}.

(** [train_loader], [test_loader] and [synth_loader] (lines 93-98). *)
Definition make_train_loader (a : Args) (d : dataset)
    (smp : Sampler dataset) : Loader dataset :=
  {| ld_dataset := d; ld_batch_size := batch_size a;
     ld_sampler := Some smp; ld_drop_last := true;
     ld_collate := collate_fn; ld_num_workers := num_workers a;
     ld_pin_memory := true |}.

Definition make_test_loader (a : Args) (d : dataset) : Loader dataset :=
  {| ld_dataset := d; ld_batch_size := batch_size a;
     ld_sampler := None; ld_drop_last := false;
     ld_collate := collate_fn; ld_num_workers := num_workers a;
     ld_pin_memory := true |}.

Definition make_synth_loader (a : Args) (d : dataset) : Loader dataset :=
  {| ld_dataset := d; ld_batch_size := 1;
     ld_sampler := None; ld_drop_last := false;
     ld_collate := collate_fn_synthesize; ld_num_workers := num_workers a;
     ld_pin_memory := true |}.

(** The train loader holds the sampler object, so a pass over it sees the
    epoch the sampler was last given. *)
Definition train_loader (a : Args) (st : State) : Loader dataset :=
  make_train_loader a (train_dataset st) (train_sampler st).

Definition test_loader (a : Args) (st : State) : Loader dataset :=
  make_test_loader a (test_dataset st).

Definition synth_loader (a : Args) (st : State) : Loader dataset :=
  make_synth_loader a (test_dataset st).

(** [build_model] (lines 101-112). *)
Definition build_model (a : Args) : model :=
  let pretrained := load_step a >? 0 in
  flowavenet 1 (cin_channels a) (n_block a) (n_flow a) (n_layer a)
             (hidden_channels a) true pretrained (block_per_split a).

(** [scheduler.step()]: count the step and set the optimizer's learning
    rate to [base_lr * gamma ** (last_epoch // step_size)]. *)
Definition decay_exponent (s : Scheduler) : Z := last_epoch s / step_size s.

Definition scheduled_lr (s : Scheduler) : float :=
  fmul (base_lr s) (fpow (gamma s) (decay_exponent s)).

Definition scheduler_step (st : State) : M State :=
  run! emit EvSchedulerStep in
  let s := st_scheduler st in
  if step_size s =? 0 then raise ZeroDivisionError
  else
    let s' := {| step_size := step_size s; gamma := gamma s;
                 base_lr := base_lr s; last_epoch := last_epoch s + 1 |} in
    ret (set_optimizer (opt_set_lr (scheduled_lr s') (st_optimizer st))
           (set_scheduler s' st)).

(** The loss of one batch, [-(mean(log_p) + mean(logdet))]. *)
Definition batch_loss (out : tensor * tensor) : tensor :=
  t_neg (t_add (t_mean (fst out)) (t_mean (snd out))).

(** The body of the loop of [train] (lines 127-162); the loop carries
    [epoch_loss] and the objects. *)
Definition train_batch (e : Env) (xc : tensor * tensor)
    (acc : float * State) : M (float * State) :=
  let! st := scheduler_step (snd acc) in
  let st := set_globals (global_step st + 1) (global_epoch st) st in
  let x := to_device (use_cuda e) (fst xc) in
  let c := to_device (use_cuda e) (snd xc) in
  run! emit EvZeroGrad in
  let m0 := opt_zero_grad (st_optimizer st) (st_model st) in
  run! emit (EvForward x c) in
  let fw := model_forward m0 x c in
  let loss_t := batch_loss (snd fw) in
  let scaled_loss := amp_scale_loss loss_t (st_optimizer st) in
  run! emit (EvBackward scaled_loss) in
  let m1 := backward scaled_loss (fst fw) in
  let un := amp_unscale (st_optimizer st) m1 in
  run! emit (EvClipGradNorm (float_of_Q 1)) in
  let m2 := clip_grad_norm (float_of_Q 1) (fst un) (snd un) in
  run! emit EvOptimizerStep in
  let os := opt_step (fst un) m2 in
  ret (fadd (fst acc) (t_item loss_t),
       set_model (snd os) (set_optimizer (fst os) st)).

(** [x / n] on a float and an [int]. *)
Definition float_div (x : float) (n : Z) : M float :=
  if n =? 0 then raise ZeroDivisionError else ret (fdiv_int x n).

(** [train] (lines 115-166). *)
Definition train (a : Args) (e : Env) (epoch : Z) (st : State)
    : M (float * State) :=
  let smp := train_sampler st in
  let st := set_sampler {| smp_dataset := smp_dataset smp;
                           smp_num_replicas := smp_num_replicas smp;
                           smp_rank := smp_rank smp;
                           smp_epoch := epoch |} st in
  run! emit (EvSetEpoch epoch) in
  run! emit EvModelTrain in
  let st := set_model (model_set_mode true (st_model st)) st in
  let batches := loader_batches (train_loader a st) in
  let! r := for_each (train_batch e) batches (float_of_Q 0, st) in
  run! emit EvGcCollect in
  let! avg := float_div (fst r) (Z.of_nat (length batches)) in
  ret (avg, snd r).

(** The body of the loop of [evaluate] (lines 174-189). *)
Definition evaluate_batch (e : Env) (xc : tensor * tensor)
    (acc : float * model) : M (float * model) :=
  let x := to_device (use_cuda e) (fst xc) in
  let c := to_device (use_cuda e) (snd xc) in
  run! emit (EvForward x c) in
  let fw := model_forward (snd acc) x c in
  ret (fadd (fst acc) (t_item (batch_loss (snd fw))), fst fw).

(** [evaluate] (lines 169-193). *)
Definition evaluate (a : Args) (e : Env) (st : State) : M (float * State) :=
  run! emit EvEvaluate in
  let m := model_set_mode false (st_model st) in
  let batches := loader_batches (test_loader a st) in
  let! r := for_each (evaluate_batch e) batches (float_of_Q 0, m) in
  let! avg := float_div (fst r) (Z.of_nat (length batches)) in
  ret (avg, set_model (snd r) st).

(** The name of the sample file (line 210). *)
Definition wav_name (a : Args) (step batch_idx : Z) : string :=
  sample_path a +:+ "/" +:+ model_name a +:+ "/generate_"
    +:+ format_int step +:+ "_" +:+ format_int batch_idx +:+ ".wav".

(** [synthesize] (lines 196-214): only the first batch of the loader is
    rendered. *)
Definition synthesize (a : Args) (e : Env) (st : State) : M State :=
  run! emit EvSynthesize in
  let st := set_model (model_set_mode false (st_model st)) st in
  match loader_batches (synth_loader a st) with
  | [] => ret st
  | xc :: _ =>
      let x := to_device (use_cuda e) (fst xc) in
      let c := to_device (use_cuda e) (snd xc) in
      let! z := sample_like x in
      let y_gen := model_reverse (st_model st) z c in
      let name := wav_name a (global_step st) 0 in
      run! emit (EvWriteWav name) in
      run! write_file name (WavChunk y_gen 22050) in
      ret st
  end.

(** The checkpoint file of a step (lines 218 and 232). *)
Definition checkpoint_path (a : Args) (step : Z) : string :=
  os_path_join (save a)
    [model_name a; "checkpoint_step" +:+ format_09d step +:+ ".pth"].

(** [save_checkpoint] (lines 217-225). *)
Definition save_checkpoint (a : Args) (m : model) (o : optimizer)
    (s : Scheduler) (step epoch : Z) : M unit :=
  let path := checkpoint_path a step in
  let optimizer_state := opt_state_dict o in
  let scheduler_state := s in
  run! emit (EvTorchSave path) in
  write_file path
    (CkptChunk {| ck_state_dict := model_state_dict m;
                  ck_optimizer := optimizer_state;
                  ck_scheduler := scheduler_state;
                  ck_global_step := step;
                  ck_global_epoch := epoch |}).

(** [torch.load]: the file has to hold one pickled checkpoint. *)
Definition torch_load (p : string) : M Checkpoint :=
  run! emit (EvTorchLoad p) in
  let! content := read_file p in
  match content with
  | [CkptChunk ck] => ret ck
  | _ => raise UnpicklingError
  end.

(** The dictionary the fallback of [load_checkpoint] builds (lines
    242-247): every key loses its first seven characters. *)
Definition strip_module_prefix (state_dict : list (string * tensor))
    : list (string * tensor) :=
  fold_left (fun new_state_dict kv =>
               dict_set (str_from 7 (fst kv)) (snd kv) new_state_dict)
            state_dict [].

(** [model.load_state_dict(d)], which fails with [RuntimeError]. *)
Definition load_model_state (d : list (string * tensor)) (m : model)
    : M model :=
  run! emit (EvModelLoadStateDict d) in
  match model_load_state_dict d m with
  | Some m' => ret m'
  | None => raise RuntimeError
  end.

(** [try: ... except RuntimeError: ...]. *)
Definition try_except_RuntimeError {A} (body handler : M A) : M A :=
  fun w =>
    match body w with
    | (Raise RuntimeError, w') => handler w'
    | r => r
    end.

(** [load_checkpoint] (lines 228-255). *)
Definition load_checkpoint (a : Args) (step : Z) (st : State) : M State :=
  let path := checkpoint_path a step in
  let! checkpoint := torch_load path in
  let! m :=
    try_except_RuntimeError
      (load_model_state (ck_state_dict checkpoint) (st_model st))
      (load_model_state (strip_module_prefix (ck_state_dict checkpoint))
                        (st_model st)) in
  run! emit EvOptimizerLoad in
  match opt_load_state_dict (ck_optimizer checkpoint) (st_optimizer st) with
  | None => raise ValueError
  | Some o =>
      run! emit EvSchedulerLoad in
      ret (set_globals (ck_global_step checkpoint)
             (ck_global_epoch checkpoint)
             (set_scheduler (ck_scheduler checkpoint)
                (set_optimizer o (set_model m st))))
  end.

(** The level the script passes to [amp.initialize] (line 276). *)
Definition amp_opt_level : string := "O0".

(** The module-level code (lines 36-98): arguments, process group,
    directories, datasets, sampler and loaders. *)
Definition make_dirs (a : Args) : M unit :=
  run! ensure_dir (log a) in
  run! ensure_dir (save a) in
  run! ensure_dir (loss a) in
  run! ensure_dir (sample_path a) in
  run! ensure_dir (os_path_join (sample_path a) [model_name a]) in
  ensure_dir (os_path_join (save a) [model_name a]).

Definition initial_sampler (a : Args) (e : Env) (d : dataset)
    : Sampler dataset :=
  {| smp_dataset := d; smp_num_replicas := world_size e;
     smp_rank := local_rank a; smp_epoch := 0 |}.

(** The globals before the model exists: the two datasets and the
    sampler. *)
Definition module_level (a : Args) (e : Env)
    : M (dataset * dataset * Sampler dataset) :=
  run! emit EvParseArgs in
  run! emit (EvInitProcessGroup "nccl" (world_size e) (local_rank a)) in
  run! emit (EvSetDevice (local_rank a)) in
  run! (if local_rank a =? 0 then make_dirs a else ret tt) in
  run! emit (EvDataset (data_path a) true) in
  let train_ds := ljspeech_dataset (data_path a) true (float_of_Q (1 # 10)) in
  run! emit (EvDataset (data_path a) false) in
  let test_ds := ljspeech_dataset (data_path a) false (float_of_Q (1 # 10)) in
  let smp := initial_sampler a e train_ds in
  run! emit (EvDistributedSampler smp) in
  run! emit (EvDataLoader (make_train_loader a train_ds smp)) in
  run! emit (EvDataLoader (make_test_loader a test_ds)) in
  run! emit (EvDataLoader (make_synth_loader a test_ds)) in
  ret (train_ds, test_ds, smp).

(** [a // b] on integers. *)
Definition floor_div (x y : Z) : M Z :=
  if y =? 0 then raise ZeroDivisionError else ret (x / y).

(** [StepLR(optimizer, step_size, gamma)]: the constructor takes the
    optimizer's rate as [base_lr] and makes the initial step, which divides
    by [step_size] and leaves the rate at [base_lr]. *)
Definition new_StepLR (o : optimizer) (size : Z) (g : float) : M Scheduler :=
  run! emit (EvStepLR size g) in
  if size =? 0 then raise ZeroDivisionError
  else ret {| step_size := size; gamma := g; base_lr := opt_get_lr o;
              last_epoch := 0 |}.

(** The ActNorm initialisation (lines 267-273): one forward pass on the
    first training batch. *)
Definition actnorm_init (a : Args) (e : Env) (st : State) : M State :=
  match loader_batches (train_loader a st) with
  | [] => raise StopIteration
  | xc :: _ =>
      let x_seed := to_device (use_cuda e) (fst xc) in
      let c_seed := to_device (use_cuda e) (snd xc) in
      run! emit EvActNormInit in
      run! emit (EvForward x_seed c_seed) in
      ret (set_model (fst (model_forward (st_model st) x_seed c_seed)) st)
  end.

(** Lines 260-280: model, optimizer, scheduler, AMP, data parallelism. *)
Definition build (a : Args) (e : Env)
    (g : dataset * dataset * Sampler dataset) : M State :=
  let pretrained := load_step a >? 0 in
  run! emit (EvBuildModel pretrained) in
  let m := build_model a in
  run! emit (EvModelTo (use_cuda e)) in
  let m := model_to (use_cuda e) m in
  run! emit (EvAdam (learning_rate a)) in
  let o := adam m (learning_rate a) in
  let! size := floor_div 200000 (world_size e) in
  let! s := new_StepLR o size (float_of_Q (1 # 2)) in
  let st := {| st_model := m; st_optimizer := o; st_scheduler := s;
               train_sampler := snd g; train_dataset := fst (fst g);
               test_dataset := snd (fst g);
               global_step := 0; global_epoch := 0 |} in
  let! st := (if pretrained then ret st else actnorm_init a e st) in
  run! emit (EvAmpInitialize amp_opt_level) in
  let mo := amp_initialize (st_model st) (st_optimizer st) amp_opt_level in
  let st := set_optimizer (snd mo) (set_model (fst mo) st) in
  run! emit EvDistributedDataParallel in
  ret (set_model (ddp_wrap (st_model st)) st).

(** [np.load(p).tolist()] and [np.min]. *)
Definition np_load (p : string) : M (list float) :=
  run! emit (EvNpLoad p) in
  let! content := read_file p in
  match content with
  | [NpyChunk xs] => ret xs
  | _ => raise ValueError
  end.

Definition np_min_of (xs : list float) : M float :=
  match xs with
  | [] => raise ValueError
  | _ => ret (np_min xs)
  end.

Definition train_loss_path (a : Args) : string :=
  loss a +:+ "/" +:+ model_name a +:+ "_train.npy".

Definition eval_loss_path (a : Args) : string :=
  loss a +:+ "/" +:+ model_name a +:+ ".npy".

Definition log_path (a : Args) : string :=
  os_path_join (log a) [model_name a +:+ ".txt"].

(** Lines 282-291: a fresh start or a resume. *)
Definition fresh_or_resume (a : Args) (st : State) : M Loop :=
  if load_step a =? 0 then
    ret {| lp_state := st; test_loss := float_of_Q 100;
           list_train_loss := []; list_loss := [] |}
  else
    let! st := load_checkpoint a (load_step a) st in
    let! ltl := np_load (train_loss_path a) in
    let! ll := np_load (eval_loss_path a) in
    let ltl := slice_to (global_epoch st) ltl in
    let ll := slice_to (global_epoch st) ll in
    let! best := np_min_of ll in
    ret {| lp_state := st; test_loss := best;
           list_train_loss := ltl; list_loss := ll |}.

(** [args._get_kwargs()]: the arguments sorted by name. *)
Definition get_kwargs (a : Args) : list (string * jvalue) :=
  [ ("batch_size", JInt (batch_size a));
    ("block_per_split", JInt (block_per_split a));
    ("cin_channels", JInt (cin_channels a));
    ("data_path", JStr (data_path a));
    ("epochs", JInt (epochs a));
    ("hidden_channels", JInt (hidden_channels a));
    ("learning_rate", JFloat (learning_rate a));
    ("load_step", JInt (load_step a));
    ("local_rank", JInt (local_rank a));
    ("log", JStr (log a));
    ("loss", JStr (loss a));
    ("model_name", JStr (model_name a));
    ("n_block", JInt (n_block a));
    ("n_flow", JInt (n_flow a));
    ("n_layer", JInt (n_layer a));
    ("num_workers", JInt (num_workers a));
    ("sample_path", JStr (sample_path a));
    ("save", JStr (save a)) ].

(** The dictionary written to the log (lines 317-320). *)
Definition log_state (a : Args) (training_loss eval_loss : float)
    (epoch : Z) : list (string * jvalue) :=
  dict_set "epoch" (JInt epoch)
    (dict_set "eval_loss" (JFloat eval_loss)
       (dict_set "training_loss" (JFloat training_loss) (get_kwargs a))).

(** Lines 304-309: the gate on the evaluation loss. *)
Definition save_if_better (a : Args) (e : Env) (epoch : Z)
    (best test_epoch_loss : float) (st : State) : M (float * State) :=
  if fgt best test_epoch_loss then
    run! save_checkpoint a (st_model st) (st_optimizer st)
                         (st_scheduler st) (global_step st) epoch in
    let! st := synthesize a e st in
    ret (test_epoch_loss, st)
  else ret (best, st).

(** Lines 311-323: the loss histories and the log line. *)
Definition persist_losses (a : Args) (epoch : Z)
    (training_epoch_loss test_epoch_loss : float)
    (ltl ll : list float) : M (list float * list float) :=
  let ltl := ltl ++ [training_epoch_loss] in
  let ll := ll ++ [test_epoch_loss] in
  run! emit (EvNpSave (train_loss_path a)) in
  run! write_file (train_loss_path a) (NpyChunk ltl) in
  run! emit (EvNpSave (eval_loss_path a)) in
  run! write_file (eval_loss_path a) (NpyChunk ll) in
  run! emit (EvLogWrite (log_path a)) in
  run! append_file (log_path a)
         (LineChunk (log_state a training_epoch_loss test_epoch_loss epoch)) in
  ret (ltl, ll).

(** The body of the epoch loop (lines 293-325). *)
Definition epoch_body (a : Args) (e : Env) (epoch : Z) (lp : Loop)
    : M Loop :=
  let! tr := train a e epoch (lp_state lp) in
  if local_rank a >? 0 then
    run! emit EvGcCollect in
    ret {| lp_state := snd tr; test_loss := test_loss lp;
           list_train_loss := list_train_loss lp;
           list_loss := list_loss lp |}
  else
    let! ev := evaluate a e (snd tr) in
    let! gate := save_if_better a e epoch (test_loss lp) (fst ev) (snd ev) in
    let! hist := persist_losses a epoch (fst tr) (fst ev)
                   (list_train_loss lp) (list_loss lp) in
    run! emit EvGcCollect in
    ret {| lp_state := snd gate; test_loss := fst gate;
           list_train_loss := fst hist; list_loss := snd hist |}.

(** The epochs the loop runs, [range(global_epoch + 1, args.epochs + 1)]. *)
Definition epoch_range (a : Args) (st : State) : list Z :=
  range (global_epoch st + 1) (epochs a + 1).

(** The whole script. *)
Definition main (a : Args) (e : Env) : M Loop :=
  let! g := module_level a e in
  let! st := build a e g in
  let! lp := fresh_or_resume a st in
  for_each (epoch_body a e) (epoch_range a (lp_state lp)) lp.

End Script.

(** ** A small instance of the libraries

    Tensors are integers, floats are reduced fractions, a model is its
    dictionary of weights, and a dataset is a list of ready batches of
    which a distributed sampler keeps every [num_replicas]-th one.  The
    instance is what the concrete runs below are evaluated on. *)

Module Toy.

Definition qgt (x y : Q) : bool := negb (Qle_bool x y).

Definition qmin (xs : list Q) : Q :=
  fold_right (fun x m => if Qle_bool x m then x else m)
             (hd 0%Q xs) xs.

Fixpoint shard {A} (replicas rank : nat) (i : nat) (l : list A) : list A :=
  match l with
  | [] => []
  | x :: l' =>
      if Nat.eqb (Nat.modulo i replicas) rank
      then x :: shard replicas rank (S i) l'
      else shard replicas rank (S i) l'
  end.

Definition batches (ld : Loader (list (Z * Z))) : list (Z * Z) :=
  match ld_sampler ld with
  | Some s => shard (Z.to_nat (smp_num_replicas s))
                    (Z.to_nat (smp_rank s)) 0 (ld_dataset ld)
  | None => ld_dataset ld
  end.

Definition add_prefix (kv : string * Z) : string * Z :=
  ("module." +:+ fst kv, snd kv).

Definition bump (kv : string * Z) : string * Z := (fst kv, snd kv + 1).

Definition load (d m : list (string * Z)) : option (list (string * Z)) :=
  if bool_decide (map fst d = map fst m) then Some d else None.

#[local] Instance lib : TorchLib := {|
  tensor := Z;
  float := Q;
  model := list (string * Z);
  optimizer := Q * Z;
  opt_state := Q * Z;
  dataset := list (Z * Z);
  rng := Z;
  float_of_Q := Qred;
  fadd := fun x y => Qred (x + y);
  fmul := fun x y => Qred (x * y);
  fdiv_int := fun x n => Qred (x / inject_Z n);
  fpow := fun x n => Qred (x ^ n);
  fgt := qgt;
  np_min := qmin;
  to_device := fun _ t => t;
  t_mean := fun t => t;
  t_add := Z.add;
  t_neg := Z.opp;
  t_item := inject_Z;
  normal_sample := fun _ r => (r, r + 1);
  backward := fun _ m => m;
  ljspeech_dataset := fun _ tr _ =>
    if tr then [(1, 2); (3, 4); (5, 6); (7, 8)] else [(-3, 0)];
  loader_batches := batches;
  flowavenet := fun _ _ _ _ _ _ _ _ _ => [("w"%string, 0)];
  model_to := fun _ m => m;
  model_set_mode := fun _ m => m;
  model_forward := fun m x c => (m, (x, c));
  model_reverse := fun _ z c => z + c;
  model_state_dict := fun m => m;
  model_load_state_dict := load;
  adam := fun _ lr => (lr, 0);
  opt_get_lr := fst;
  opt_set_lr := fun lr o => (lr, snd o);
  opt_zero_grad := fun _ m => m;
  opt_step := fun o m => ((fst o, snd o + 1), map bump m);
  opt_state_dict := fun o => o;
  opt_load_state_dict := fun s _ => Some s;
  clip_grad_norm := fun _ _ m => m;
  amp_initialize := fun m o _ => (m, o);
  amp_scale_loss := fun t _ => t;
  amp_unscale := fun o m => (o, m);
  ddp_wrap := map add_prefix
|}.

Definition args (rank step n_epochs : Z) : Args :=
  {| local_rank := rank; data_path := "./DATASETS/ljspeech/";
     sample_path := "./samples"; save := "./params"; load_step := step;
     log := "./log"; model_name := "flowavenet"; epochs := n_epochs;
     batch_size := 2; learning_rate := (1 # 1000)%Q; loss := "./loss";
     n_layer := 2; n_flow := 6; n_block := 8; cin_channels := 80;
     hidden_channels := 256; block_per_split := 4; num_workers := 2 |}.

Definition env (ws : Z) : Env := {| world_size := ws; use_cuda := true |}.

Definition empty_world : World :=
  {| fs := ∅; dirs := ∅; rng_state := 0; trace := [] |}.

Definition with_fs (f : gmap string (list chunk)) : World :=
  {| fs := f; dirs := ∅; rng_state := 0; trace := [] |}.

(** Two epochs from a fresh start on the first process, one epoch on the
    second process, and a resume from step 2; two processes in all. *)
Definition fresh_args : Args := args 0 0 2.
Definition worker_args : Args := args 1 0 1.
Definition resume_args : Args := args 0 2 2.
Definition two : Env := env 2.

Definition train_set : list (Z * Z) := [(1, 2); (3, 4); (5, 6); (7, 8)].

(** The objects of the first of two processes after the set-up. *)
Definition state0 : State :=
  {| st_model := [("module.w"%string, 0)];
     st_optimizer := ((1 # 1000)%Q, 0);
     st_scheduler := {| step_size := 100000; gamma := (1 # 2)%Q;
                        base_lr := (1 # 1000)%Q; last_epoch := 0 |};
     train_sampler := {| smp_dataset := train_set; smp_num_replicas := 2;
                         smp_rank := 0; smp_epoch := 0 |};
     train_dataset := train_set;
     test_dataset := [(-3, 0)];
     global_step := 0;
     global_epoch := 0 |}.

Definition loop0 : Loop :=
  {| lp_state := state0; test_loss := 100%Q;
     list_train_loss := []; list_loss := [] |}.

(** A checkpoint of the first epoch, taken at step 2, and the loss
    histories of a run that went on for a second epoch. *)
Definition ckpt : Checkpoint :=
  {| ck_state_dict := [("module.w"%string, 7)];
     ck_optimizer := ((1 # 1000)%Q, 2);
     ck_scheduler := {| step_size := 100000; gamma := (1 # 2)%Q;
                        base_lr := (1 # 1000)%Q; last_epoch := 2 |};
     ck_global_step := 2;
     ck_global_epoch := 1 |}.

(** A checkpoint saved from a model that was not wrapped. *)
Definition bare_ckpt : Checkpoint :=
  {| ck_state_dict := [("prefix_module.w"%string, 7)];
     ck_optimizer := ((1 # 1000)%Q, 2);
     ck_scheduler := {| step_size := 100000; gamma := (1 # 2)%Q;
                        base_lr := (1 # 1000)%Q; last_epoch := 2 |};
     ck_global_step := 2;
     ck_global_epoch := 1 |}.

Definition history : list (@float lib) := [5%Q; 1%Q].


Definition bare_fs : gmap string (list chunk) :=
  <[checkpoint_path (args 0 2 2) 2 := [CkptChunk bare_ckpt]]> ∅.

(** The objects of a process whose data sets are empty. *)
Definition starved_state : State :=
  {| st_model := st_model state0;
     st_optimizer := st_optimizer state0;
     st_scheduler := st_scheduler state0;
     train_sampler := train_sampler state0;
     train_dataset := [];
     test_dataset := [];
     global_step := 0;
     global_epoch := 0 |}.

(** A run of no epochs, and a run asked to load step -2. *)
Definition idle_args : Args := args 0 0 0.
Definition neg_args : Args := args 0 (-2) 2.

Definition neg_fs : gmap string (list chunk) :=
  <[checkpoint_path (args 0 (-2) 2) (-2) := [CkptChunk ckpt]]>
    (<[train_loss_path (args 0 (-2) 2) := [NpyChunk [0%Q; 0%Q]]]>
       (<[eval_loss_path (args 0 (-2) 2) := [NpyChunk history]]> ∅)).

(** Two keys that differ only in their first seven characters. *)
Definition colliding : list (string * Z) :=
  [("module.w"%string, 1); ("MODULE.w"%string, 2)].

End Toy.

(** ** Vocabulary of the properties *)

Section Vocabulary.
Context {L : TorchLib}.

(** One pass of the training loop as the trace shows it: the batch on the
    device, the model's output, and the scheduler and optimizer after
    [scheduler.step()]. *)
Record batch_step := {
  bs_x : tensor;
  bs_c : tensor;
  bs_out : tensor * tensor;
  bs_scheduler : Scheduler;
  bs_optimizer : optimizer
}.

Definition batch_events (b : batch_step) : list event :=
  [ EvSchedulerStep;
    EvZeroGrad;
    EvForward (bs_x b) (bs_c b);
    EvBackward (amp_scale_loss
                  (t_neg (t_add (t_mean (fst (bs_out b)))
                                (t_mean (snd (bs_out b)))))
                  (bs_optimizer b));
    EvClipGradNorm (float_of_Q 1);
    EvOptimizerStep ].

(** The steps of a pass over [batches] that starts with scheduler [s]:
    each step counts one scheduler step and feeds the optimizer the rate
    of the new count. *)
Inductive steps_of (e : Env)
  : Scheduler -> list (tensor * tensor) -> list batch_step -> Prop :=
| steps_nil s : steps_of e s [] []
| steps_cons s xc batches b steps :
    bs_x b = to_device (use_cuda e) (fst xc) ->
    bs_c b = to_device (use_cuda e) (snd xc) ->
    (exists m, bs_out b = snd (model_forward m (bs_x b) (bs_c b))) ->
    bs_scheduler b = {| step_size := step_size s; gamma := gamma s;
                        base_lr := base_lr s;
                        last_epoch := last_epoch s + 1 |} ->
    (exists o, bs_optimizer b = opt_set_lr (scheduled_lr (bs_scheduler b)) o) ->
    steps_of e (bs_scheduler b) batches steps ->
    steps_of e s (xc :: batches) (b :: steps).

(** The events only the first process may produce. *)
Definition rank0_event (ev : event) : bool :=
  match ev with
  | EvEvaluate | EvTorchSave _ | EvSynthesize | EvWriteWav _
  | EvNpSave _ | EvLogWrite _ => true
  | _ => false
  end.

Definition is_makedirs (ev : event) : bool :=
  match ev with EvMakedirs _ => true | _ => false end.

Definition is_save (ev : event) : bool :=
  match ev with EvTorchSave _ => true | _ => false end.

Definition is_synthesize (ev : event) : bool :=
  match ev with EvSynthesize => true | _ => false end.

Definition is_evaluate (ev : event) : bool :=
  match ev with EvEvaluate => true | _ => false end.

Definition is_backward (ev : event) : bool :=
  match ev with EvBackward _ => true | _ => false end.

Definition is_set_epoch (ev : event) : bool :=
  match ev with EvSetEpoch _ => true | _ => false end.




(** The events of training: what [train] produces. *)
Definition train_event (ev : event) : bool :=
  match ev with
  | EvSetEpoch _ | EvModelTrain | EvSchedulerStep | EvZeroGrad
  | EvForward _ _ | EvBackward _ | EvClipGradNorm _ | EvOptimizerStep
  | EvGcCollect => true
  | _ => false
  end.

(** The events of the epoch loop. *)
Definition loop_event (ev : event) : bool :=
  train_event ev || rank0_event ev.

(** The best evaluation loss after a run of epochs: a loss replaces the
    best when the best is greater. *)
Definition better (best x : float) : float := if fgt best x then x else best.



Definition has (p : event -> bool) (d : list event) : Prop :=
  exists ev, In ev d /\ p ev = true.


(** The events a process of any rank produces outside the rank-0 part of
    the loop, with the level of [amp.initialize] pinned to the script's. *)
Definition worker_event (ev : event) : bool :=
  match ev with
  | EvMakedirs _ | EvEvaluate | EvTorchSave _ | EvSynthesize | EvWriteWav _
  | EvNpSave _ | EvLogWrite _ => false
  | EvAmpInitialize l => String.eqb l amp_opt_level
  | _ => true
  end.

(** Every event of the script, with the same pin. *)
Definition script_event (ev : event) : bool :=
  match ev with
  | EvAmpInitialize l => String.eqb l amp_opt_level
  | _ => true
  end.

(** The parts of the state that training leaves alone. *)
Definition same_globals (st st' : State) : Prop :=
  train_sampler st' = train_sampler st /\
  train_dataset st' = train_dataset st /\
  test_dataset st' = test_dataset st /\
  global_epoch st' = global_epoch st.

(** A scheduler after [n] more steps. *)
Definition advanced (n : Z) (s s' : Scheduler) : Prop :=
  step_size s' = step_size s /\ gamma s' = gamma s /\
  base_lr s' = base_lr s /\ last_epoch s' = last_epoch s + n.

(** The sampler after [set_epoch(epoch)]. *)
Definition with_epoch (epoch : Z) (s : Sampler dataset) : Sampler dataset :=
  {| smp_dataset := smp_dataset s; smp_num_replicas := smp_num_replicas s;
     smp_rank := smp_rank s; smp_epoch := epoch |}.

(** The batches [train] iterates in an epoch. *)
Definition epoch_batches (a : Args) (epoch : Z) (st : State)
    : list (tensor * tensor) :=
  loader_batches
    (make_train_loader a (train_dataset st)
       (with_epoch epoch (train_sampler st))).

Definition is_forward (ev : event) : bool :=
  match ev with EvForward _ _ => true | _ => false end.

Definition is_write_wav (ev : event) : bool :=
  match ev with EvWriteWav _ => true | _ => false end.

(** States that differ in the model at most. *)
Definition same_but_model (st st' : State) : Prop :=
  st_optimizer st' = st_optimizer st /\
  st_scheduler st' = st_scheduler st /\
  global_step st' = global_step st /\
  same_globals st st'.

(** The last character of a path, which tells the kinds of files apart. *)
Fixpoint last_char (s : string) : option ascii :=
  match s with
  | EmptyString => None
  | String c EmptyString => Some c
  | String _ s' => last_char s'
  end.

(** The checkpoint [save_checkpoint] writes. *)
Definition checkpoint_of (m : model) (o : optimizer) (s : Scheduler)
    (step epoch : Z) : Checkpoint :=
  {| ck_state_dict := model_state_dict m; ck_optimizer := opt_state_dict o;
     ck_scheduler := s; ck_global_step := step; ck_global_epoch := epoch |}.

(** The state [load_checkpoint] leaves: model [m] and optimizer [o] as the
    library loaded them, the rest as the checkpoint has it. *)
Definition restored (ck : Checkpoint) (m : model) (o : optimizer)
    (st : State) : State :=
  set_globals (ck_global_step ck) (ck_global_epoch ck)
    (set_scheduler (ck_scheduler ck) (set_optimizer o (set_model m st))).

(** The six directories of the first process (lines 70-82). *)
Definition script_dirs (a : Args) : list string :=
  [ log a; save a; loss a; sample_path a;
    os_path_join (sample_path a) [model_name a];
    os_path_join (save a) [model_name a] ].

(** The events of the module-level code, directories apart. *)
Definition setup_events (a : Args) (e : Env) : list event * list event :=
  let train_ds := ljspeech_dataset (data_path a) true (float_of_Q (1 # 10)) in
  let test_ds := ljspeech_dataset (data_path a) false (float_of_Q (1 # 10)) in
  let smp := initial_sampler a e train_ds in
  ([ EvParseArgs;
     EvInitProcessGroup "nccl" (world_size e) (local_rank a);
     EvSetDevice (local_rank a) ],
   [ EvDataset (data_path a) true;
     EvDataset (data_path a) false;
     EvDistributedSampler smp;
     EvDataLoader (make_train_loader a train_ds smp);
     EvDataLoader (make_test_loader a test_ds);
     EvDataLoader (make_synth_loader a test_ds) ]).

(** The events of one epoch: training, then on the first process
    evaluation, the gated checkpoint and sample, the loss files and the
    log, and the garbage collection that ends the iteration. *)
Definition train_part (epoch : Z) (steps : list batch_step) : list event :=
  [EvSetEpoch epoch; EvModelTrain] ++ concat (map batch_events steps)
    ++ [EvGcCollect].

Definition persist_part (a : Args) : list event :=
  [EvNpSave (train_loss_path a); EvNpSave (eval_loss_path a);
   EvLogWrite (log_path a)].

Definition gate_part (a : Args) (d : list event) : Prop :=
  d = [] \/
  exists step wavs,
    d = [EvTorchSave (checkpoint_path a step); EvSynthesize] ++ wavs /\
    forallb is_write_wav wavs = true.

Definition epoch_shape (a : Args) (epoch : Z) (d : list event) : Prop :=
  exists steps,
    (0 < local_rank a /\ d = train_part epoch steps ++ [EvGcCollect]) \/
    (local_rank a <= 0 /\
     exists fw gate,
       forallb is_forward fw = true /\ gate_part a gate /\
       d = train_part epoch steps ++ [EvEvaluate] ++ fw ++ gate
             ++ persist_part a ++ [EvGcCollect]).

(** The events of the model load: one call when the dictionary fits, two
    when the first raised [RuntimeError]. *)
Definition model_load_events (sd : list (string * tensor)) (m : model)
    : list event :=
  match model_load_state_dict sd m with
  | Some _ => [EvModelLoadStateDict sd]
  | None => [EvModelLoadStateDict sd;
             EvModelLoadStateDict (strip_module_prefix sd)]
  end.

(** The model the load ends with, if any. *)
Definition model_loaded (sd : list (string * tensor)) (m : model)
    : option model :=
  match model_load_state_dict sd m with
  | Some m' => Some m'
  | None => model_load_state_dict (strip_module_prefix sd) m
  end.

(** The events of a resume. *)
Definition resume_events (a : Args) (ck : Checkpoint) (m : model)
    : list event :=
  [EvTorchLoad (checkpoint_path a (load_step a))]
    ++ model_load_events (ck_state_dict ck) m
    ++ [EvOptimizerLoad; EvSchedulerLoad;
        EvNpLoad (train_loss_path a); EvNpLoad (eval_loss_path a)].

(** The events of lines 260-277. *)
Definition build_part (a : Args) (e : Env) (act : list event) : list event :=
  [EvBuildModel (load_step a >? 0); EvModelTo (use_cuda e);
   EvAdam (learning_rate a);
   EvStepLR (200000 / world_size e) (float_of_Q (1 # 2))]
    ++ act ++ [EvAmpInitialize amp_opt_level; EvDistributedDataParallel].

Definition actnorm_part (a : Args) (act : list event) : Prop :=
  (0 < load_step a /\ act = []) \/
  (load_step a <= 0 /\ exists x c, act = [EvActNormInit; EvForward x c]).

(** The loop variables of a fresh start. *)
Definition fresh_loop (st : State) : Loop :=
  {| lp_state := st; test_loss := float_of_Q 100;
     list_train_loss := []; list_loss := [] |}.

(** The loop variables of a resume from checkpoint [ck] with the loaded
    histories [ltl] and [ll]. *)
Definition resumed_loop (ck : Checkpoint) (m : model) (o : optimizer)
    (ltl ll : list float) (st : State) : Loop :=
  {| lp_state := restored ck m o st;
     test_loss := np_min (slice_to (ck_global_epoch ck) ll);
     list_train_loss := slice_to (ck_global_epoch ck) ltl;
     list_loss := slice_to (ck_global_epoch ck) ll |}.






(** How a world may differ from an earlier one: the trace grew by events
    that satisfy [P]; no file changed; no directory was made. *)
Definition traced (P : event -> bool) (w w' : World) : Prop :=
  exists d, trace w' = trace w ++ d /\ forallb P d = true.

Definition frame (P : event -> bool) (w w' : World) : Prop :=
  fs w' = fs w /\ traced P w w'.

Definition quiet (P : event -> bool) (w w' : World) : Prop :=
  dirs w' = dirs w /\ frame P w w'.

(** A computation that stays within a relation, whatever its outcome. *)
Definition keeps (R : World -> World -> Prop) {A} (m : M A) : Prop :=
  forall w r w', m w = (r, w') -> R w w'.

(** The first character of a string. *)
Definition head_char (s : string) : option ascii :=
  match s with String c _ => Some c | EmptyString => None end.

(** A decimal numeral of a natural number: ["0"], or digits that start
    with neither ["0"] nor a sign. *)
Definition canonical (s : string) : Prop :=
  s = "0"%string \/
  exists c rest, s = String c rest /\ c <> "0"%char /\ c <> "-"%char.

(** The value the fallback dictionary holds under [k]: that of the last
    stored entry whose key, cut by seven characters, is [k]. *)
Definition last_stripped {V} (k : string) (sd : list (string * V))
    : option V :=
  fold_left (fun acc kv =>
               if String.eqb (str_from 7 (fst kv)) k then Some (snd kv)
               else acc) sd None.



End Vocabulary.

(** ** Reasoning about the monad *)

Section MonadFacts.
Context {L : TorchLib}.

Lemma bind_ok {A B} (m : M A) (k : A -> M B) w b w' :
  bind m k w = (Ok b, w') ->
  exists a w1, m w = (Ok a, w1) /\ k a w1 = (Ok b, w').
Proof.
  unfold bind. destruct (m w) as [[a|x] w1]; intros H; [eauto | discriminate].
Qed.

Lemma bind_run {A B} (m : M A) (k : A -> M B) w a w1 :
  m w = (Ok a, w1) -> bind m k w = k a w1.
Proof. unfold bind. intros ->. reflexivity. Qed.

Lemma ret_ok {A} (a b : A) w w' : ret a w = (Ok b, w') -> a = b /\ w = w'.
Proof. unfold ret. intros [= <- <-]. auto. Qed.

Lemma emit_ok ev w u w' :
  emit ev w = (Ok u, w') ->
  fs w' = fs w /\ dirs w' = dirs w /\ rng_state w' = rng_state w /\
  trace w' = trace w ++ [ev].
Proof. unfold emit. intros [= _ <-]. simpl. auto. Qed.

Lemma float_div_ok x n y w w' :
  float_div x n w = (Ok y, w') -> n <> 0 /\ y = fdiv_int x n /\ w' = w.
Proof.
  unfold float_div. destruct (Z.eqb_spec n 0); [discriminate|].
  intros H. apply ret_ok in H as [<- <-]. auto.
Qed.

Global Instance traced_refl P : Reflexive (traced P).
Proof. intros w. exists []. rewrite app_nil_r. auto. Qed.

Global Instance traced_trans P : Transitive (traced P).
Proof.
  intros w1 w2 w3 (d1 & H1 & F1) (d2 & H2 & F2). exists (d1 ++ d2).
  rewrite H2, H1, app_assoc, forallb_app, F1, F2. auto.
Qed.

Global Instance frame_refl P : Reflexive (frame P).
Proof. intros w. split; reflexivity. Qed.

Global Instance frame_trans P : Transitive (frame P).
Proof.
  intros w1 w2 w3 [E1 T1] [E2 T2]. split; [congruence|].
  etransitivity; eassumption.
Qed.

Global Instance quiet_refl P : Reflexive (quiet P).
Proof. intros w. split; reflexivity. Qed.

Global Instance quiet_trans P : Transitive (quiet P).
Proof.
  intros w1 w2 w3 [E1 T1] [E2 T2]. split; [congruence|].
  etransitivity; eassumption.
Qed.

Lemma traced_weaken (P Q : event -> bool) w w' :
  (forall ev, P ev = true -> Q ev = true) -> traced P w w' -> traced Q w w'.
Proof.
  intros HPQ (d & E & F). exists d. split; [done|].
  apply forallb_forall. intros ev Hin.
  apply HPQ. eapply forallb_forall in F; eauto.
Qed.

Lemma frame_weaken (P Q : event -> bool) w w' :
  (forall ev, P ev = true -> Q ev = true) -> frame P w w' -> frame Q w w'.
Proof. intros HPQ [E T]. split; [done|]. eapply traced_weaken; eauto. Qed.

Lemma quiet_frame P w w' : quiet P w w' -> frame P w w'.
Proof. intros [_ H]. exact H. Qed.

Section Keeps.
Context (R : World -> World -> Prop) `{!Reflexive R, !Transitive R}.

Lemma keeps_ret {A} (a : A) : keeps R (ret a).
Proof. intros w r w' [= _ <-]. reflexivity. Qed.

Lemma keeps_raise {A} x : keeps R (@raise L A x).
Proof. intros w r w' [= _ <-]. reflexivity. Qed.

Lemma keeps_bind {A B} (m : M A) (k : A -> M B) :
  keeps R m -> (forall a, keeps R (k a)) -> keeps R (bind m k).
Proof.
  intros Hm Hk w r w'. unfold bind.
  destruct (m w) as [[a|x] w1] eqn:E; intros H.
  - transitivity w1; [eapply Hm | eapply Hk]; eauto.
  - revert H; intros [= _ <-]. eapply Hm; eauto.
Qed.

Lemma keeps_for_each {A S} (body : A -> S -> M S) l :
  (forall x s, keeps R (body x s)) -> forall s, keeps R (for_each body l s).
Proof.
  intros Hb. induction l as [|x l IH]; intros s; simpl.
  - apply keeps_ret.
  - apply keeps_bind; auto.
Qed.

Lemma keeps_if {A} (c : bool) (m1 m2 : M A) :
  keeps R m1 -> keeps R m2 -> keeps R (if c then m1 else m2).
Proof. destruct c; auto. Qed.
End Keeps.

Lemma emit_traced (P : event -> bool) ev :
  P ev = true -> keeps (quiet P) (emit ev).
Proof.
  intros HP w r w' [= _ <-]. repeat split; simpl.
  exists [ev]. simpl. rewrite HP. auto.
Qed.

Lemma emit_events (P : event -> bool) ev :
  P ev = true -> keeps (traced P) (emit ev).
Proof.
  intros HP w r w' [= _ <-]. exists [ev]. simpl. rewrite HP. auto.
Qed.

Lemma float_div_quiet P x n : keeps (quiet P) (float_div x n).
Proof.
  unfold float_div. apply keeps_if; [apply keeps_raise | apply keeps_ret];
    apply _.
Qed.

Lemma read_file_quiet P p : keeps (quiet P) (read_file p).
Proof.
  intros w r w'. unfold read_file.
  destruct (fs w !! p); intros [= _ <-]; reflexivity.
Qed.

End MonadFacts.

(** Splits a footprint goal along the structure of the computation. *)
Create HintDb keeps discriminated.

Ltac keeps_tac :=
  repeat match goal with
  | |- keeps _ (bind _ _) => apply keeps_bind; try solve [apply _]; [|intros ?]
  | |- keeps _ (ret _) => apply keeps_ret; solve [apply _]
  | |- keeps _ (raise _) => apply keeps_raise; solve [apply _]
  | |- keeps (quiet _) (emit _) => apply emit_traced; reflexivity
  | |- keeps (traced _) (emit _) => apply emit_events; reflexivity
  | |- keeps _ (for_each _ _ _) =>
      apply keeps_for_each; try solve [apply _]; intros ? ?
  | |- keeps _ (if _ then _ else _) => apply keeps_if; try solve [apply _]
  | |- keeps _ _ =>
      first [solve [auto 3 with keeps nocore] | progress case_match]
  end.

(** ** What the functions may touch *)

Section Footprint.
Context {L : TorchLib}.

Lemma worker_script ev : worker_event ev = true -> script_event ev = true.
Proof. destruct ev; simpl; auto. Qed.

#[local] Hint Resolve float_div_quiet read_file_quiet : keeps.

Lemma scheduler_step_quiet st : keeps (quiet worker_event) (scheduler_step st).
Proof. unfold scheduler_step. keeps_tac. Qed.
#[local] Hint Resolve scheduler_step_quiet : keeps.

Lemma train_batch_quiet e xc acc :
  keeps (quiet worker_event) (train_batch e xc acc).
Proof. unfold train_batch. keeps_tac. Qed.
#[local] Hint Resolve train_batch_quiet : keeps.

Lemma train_quiet a e epoch st :
  keeps (quiet worker_event) (train a e epoch st).
Proof. unfold train. keeps_tac. Qed.
#[local] Hint Resolve train_quiet : keeps.

Lemma ensure_dir_frame P p :
  P (EvMakedirs p) = true -> keeps (frame P) (ensure_dir p).
Proof.
  intros HP w r w'. unfold ensure_dir. case_bool_decide; intros [= _ <-].
  - reflexivity.
  - split; [done|]. exists [EvMakedirs p]. simpl. rewrite HP. auto.
Qed.

Lemma write_file_traced P p c : keeps (traced P) (write_file p c).
Proof. intros w r w' [= _ <-]. exists []. simpl. rewrite app_nil_r. auto. Qed.

Lemma append_file_traced P p c : keeps (traced P) (append_file p c).
Proof. intros w r w' [= _ <-]. exists []. simpl. rewrite app_nil_r. auto. Qed.

Lemma sample_like_traced P x : keeps (traced P) (sample_like x).
Proof. intros w r w' [= _ <-]. exists []. simpl. rewrite app_nil_r. auto. Qed.

Lemma keeps_weaken (R R' : World -> World -> Prop) {A} (m : M A) :
  (forall w w', R w w' -> R' w w') -> keeps R m -> keeps R' m.
Proof. intros HR Hm w r w' H. apply HR. eapply Hm; eauto. Qed.

Lemma quiet_traced_script w w' :
  quiet worker_event w w' -> traced script_event w w'.
Proof.
  intros (_ & _ & H). eapply traced_weaken; [apply worker_script | exact H].
Qed.

Lemma try_except_quiet {A} (body handler : M A) :
  keeps (quiet worker_event) body -> keeps (quiet worker_event) handler ->
  keeps (quiet worker_event) (try_except_RuntimeError body handler).
Proof.
  intros Hb Hh w r w'. unfold try_except_RuntimeError.
  destruct (body w) as [[a|x] w1] eqn:E.
  - intros [= <- <-]. eapply Hb; eauto.
  - destruct x; try (intros [= <- <-]; eapply Hb; eauto).
    intros H. transitivity w1; [eapply Hb | eapply Hh]; eauto.
Qed.
#[local] Hint Resolve try_except_quiet : keeps.

Lemma load_model_state_quiet d m :
  keeps (quiet worker_event) (load_model_state d m).
Proof.
  unfold load_model_state. keeps_tac.
Qed.
#[local] Hint Resolve load_model_state_quiet : keeps.

Lemma torch_load_quiet p : keeps (quiet worker_event) (torch_load p).
Proof.
  unfold torch_load. keeps_tac.
Qed.
#[local] Hint Resolve torch_load_quiet : keeps.

Lemma load_checkpoint_quiet a step st :
  keeps (quiet worker_event) (load_checkpoint a step st).
Proof.
  unfold load_checkpoint. keeps_tac.
Qed.
#[local] Hint Resolve load_checkpoint_quiet : keeps.

Lemma np_load_quiet p : keeps (quiet worker_event) (np_load p).
Proof.
  unfold np_load. keeps_tac.
Qed.
#[local] Hint Resolve np_load_quiet : keeps.

Lemma fresh_or_resume_quiet a st :
  keeps (quiet worker_event) (fresh_or_resume a st).
Proof.
  unfold fresh_or_resume, np_min_of. keeps_tac.
Qed.
#[local] Hint Resolve fresh_or_resume_quiet : keeps.

Lemma floor_div_quiet x y : keeps (quiet worker_event) (floor_div x y).
Proof. unfold floor_div. keeps_tac. Qed.
#[local] Hint Resolve floor_div_quiet : keeps.

Lemma new_StepLR_quiet o size g :
  keeps (quiet worker_event) (new_StepLR o size g).
Proof. unfold new_StepLR. keeps_tac. Qed.
#[local] Hint Resolve new_StepLR_quiet : keeps.

Lemma actnorm_init_quiet a e st :
  keeps (quiet worker_event) (actnorm_init a e st).
Proof. unfold actnorm_init. keeps_tac. Qed.
#[local] Hint Resolve actnorm_init_quiet : keeps.

Lemma build_quiet a e g : keeps (quiet worker_event) (build a e g).
Proof. unfold build. keeps_tac. Qed.
#[local] Hint Resolve build_quiet : keeps.

Lemma module_level_quiet a e :
  local_rank a <> 0 -> keeps (quiet worker_event) (module_level a e).
Proof.
  intros Hr. unfold module_level.
  destruct (Z.eqb_spec (local_rank a) 0); [done|]. keeps_tac.
Qed.

Lemma epoch_body_quiet a e epoch lp :
  0 < local_rank a -> keeps (quiet worker_event) (epoch_body a e epoch lp).
Proof.
  intros Hr. unfold epoch_body.
  destruct (Z.gtb_spec (local_rank a) 0); [|lia]. keeps_tac.
Qed.

Lemma main_quiet a e :
  0 < local_rank a -> keeps (quiet worker_event) (main a e).
Proof.
  intros Hr. unfold main.
  pose proof (module_level_quiet a e ltac:(lia)).
  pose proof (fun epoch lp => epoch_body_quiet a e epoch lp Hr).
  keeps_tac.
Qed.

(** The whole script, on any rank: every event is one of the script's, and
    the level given to [amp.initialize] is the script's. *)
Lemma worker_script_keeps {A} (m : M A) :
  keeps (quiet worker_event) m -> keeps (traced script_event) m.
Proof. apply keeps_weaken. apply quiet_traced_script. Qed.

Lemma ensure_dir_script p : keeps (traced script_event) (ensure_dir p).
Proof.
  eapply keeps_weaken; [|apply (ensure_dir_frame script_event); reflexivity].
  intros w w' [_ H]. exact H.
Qed.

#[local] Hint Resolve worker_script_keeps ensure_dir_script
  write_file_traced append_file_traced sample_like_traced : keeps.

Lemma make_dirs_script a : keeps (traced script_event) (make_dirs a).
Proof. unfold make_dirs. keeps_tac. Qed.
#[local] Hint Resolve make_dirs_script : keeps.

Lemma module_level_script a e :
  keeps (traced script_event) (module_level a e).
Proof. unfold module_level. keeps_tac. Qed.
#[local] Hint Resolve module_level_script : keeps.

Lemma evaluate_script a e st : keeps (traced script_event) (evaluate a e st).
Proof. unfold evaluate, evaluate_batch. keeps_tac. Qed.
#[local] Hint Resolve evaluate_script : keeps.

Lemma synthesize_script a e st :
  keeps (traced script_event) (synthesize a e st).
Proof. unfold synthesize. keeps_tac. Qed.
#[local] Hint Resolve synthesize_script : keeps.

Lemma save_checkpoint_script a m o s step epoch :
  keeps (traced script_event) (save_checkpoint a m o s step epoch).
Proof. unfold save_checkpoint. keeps_tac. Qed.
#[local] Hint Resolve save_checkpoint_script : keeps.

Lemma save_if_better_script a e epoch best el st :
  keeps (traced script_event) (save_if_better a e epoch best el st).
Proof. unfold save_if_better. keeps_tac. Qed.
#[local] Hint Resolve save_if_better_script : keeps.

Lemma persist_losses_script a epoch tl el ltl ll :
  keeps (traced script_event) (persist_losses a epoch tl el ltl ll).
Proof. unfold persist_losses. keeps_tac. Qed.
#[local] Hint Resolve persist_losses_script : keeps.

Lemma epoch_body_script a e epoch lp :
  keeps (traced script_event) (epoch_body a e epoch lp).
Proof. unfold epoch_body. keeps_tac. Qed.
#[local] Hint Resolve epoch_body_script : keeps.


End Footprint.

(** Takes a successful run apart, call by call. *)
Ltac run_inv H :=
  repeat match type of H with
  | bind _ _ _ = (Ok _, _) =>
      let a := fresh "a" in let w := fresh "w" in let E := fresh "E" in
      apply bind_ok in H as (a & w & E & H)
  end.

Ltac emit_inv :=
  repeat match goal with
  | E : emit _ _ = (Ok _, _) |- _ => unfold emit in E; injection E as _ <-
  | E : ret _ _ = (Ok _, _) |- _ => unfold ret in E; injection E as <- <-
  | E : write_file _ _ _ = (Ok _, _) |- _ =>
      unfold write_file in E; injection E as _ <-
  | E : append_file _ _ _ = (Ok _, _) |- _ =>
      unfold append_file in E; injection E as _ <-
  | E : sample_like _ _ = (Ok _, _) |- _ =>
      unfold sample_like in E; injection E as <- <-
  end.

(** ** Successful runs, function by function *)

Section Runs.
Context {L : TorchLib}.

Lemma scheduler_step_ok st st' w w' :
  scheduler_step st w = (Ok st', w') ->
  step_size (st_scheduler st) <> 0 /\
  advanced 1 (st_scheduler st) (st_scheduler st') /\
  st_optimizer st' =
    opt_set_lr (scheduled_lr (st_scheduler st')) (st_optimizer st) /\
  st_model st' = st_model st /\
  same_globals st st' /\ global_step st' = global_step st /\
  fs w' = fs w /\ dirs w' = dirs w /\ rng_state w' = rng_state w /\
  trace w' = trace w ++ [EvSchedulerStep].
Proof.
  unfold scheduler_step. intros H. run_inv H.
  destruct (Z.eqb_spec (step_size (st_scheduler st)) 0); [discriminate|].
  emit_inv. simpl. unfold advanced, same_globals. simpl. tauto.
Qed.

Lemma train_batch_ok e xc acc r w w' :
  train_batch e xc acc w = (Ok r, w') ->
  exists b,
    steps_of e (st_scheduler (snd acc)) [xc] [b] /\
    st_scheduler (snd r) = bs_scheduler b /\
    step_size (st_scheduler (snd acc)) <> 0 /\
    same_globals (snd acc) (snd r) /\
    global_step (snd r) = global_step (snd acc) + 1 /\
    fs w' = fs w /\ dirs w' = dirs w /\ rng_state w' = rng_state w /\
    trace w' = trace w ++ batch_events b.
Proof.
  unfold train_batch. intros H. run_inv H.
  apply scheduler_step_ok in E
    as (Hz & Hadv & Ho & Hm & Hg & Hs & Hfs & Hd & Hr & Ht).
  emit_inv. simpl.
  set (x := to_device (use_cuda e) (fst xc)).
  set (c := to_device (use_cuda e) (snd xc)).
  exists {| bs_x := x; bs_c := c;
            bs_out := snd (model_forward
                             (opt_zero_grad (st_optimizer a) (st_model a)) x c);
            bs_scheduler := st_scheduler a;
            bs_optimizer := st_optimizer a |}.
  destruct Hadv as (A1 & A2 & A3 & A4). unfold same_globals in *.
  split; [|repeat split; simpl; try tauto; try congruence].
  - constructor; simpl; eauto.
    + destruct (st_scheduler a); simpl in *; congruence.
    + constructor.
  - rewrite Ht, <- !app_assoc. reflexivity.
Qed.

Lemma advanced_trans n m s1 s2 s3 :
  advanced n s1 s2 -> advanced m s2 s3 -> advanced (n + m) s1 s3.
Proof. unfold advanced. intros (?&?&?&?) (?&?&?&?). repeat split; try congruence; lia. Qed.

Lemma same_globals_trans s1 s2 s3 :
  same_globals s1 s2 -> same_globals s2 s3 -> same_globals s1 s3.
Proof. unfold same_globals. intros (?&?&?&?) (?&?&?&?). repeat split; congruence. Qed.

Lemma train_loop_ok e batches : forall acc r w w',
  for_each (train_batch e) batches acc w = (Ok r, w') ->
  exists steps,
    steps_of e (st_scheduler (snd acc)) batches steps /\
    advanced (Z.of_nat (length batches))
             (st_scheduler (snd acc)) (st_scheduler (snd r)) /\
    same_globals (snd acc) (snd r) /\
    global_step (snd r) = global_step (snd acc) + Z.of_nat (length batches) /\
    fs w' = fs w /\ dirs w' = dirs w /\ rng_state w' = rng_state w /\
    trace w' = trace w ++ concat (map batch_events steps).
Proof.
  induction batches as [|xc batches IH]; intros acc r w w' H; simpl in H.
  - apply ret_ok in H as [<- <-]. exists []. simpl.
    rewrite app_nil_r. unfold advanced, same_globals.
    repeat split; try lia. constructor.
  - run_inv H.
    apply train_batch_ok in E
      as (b & Hb & Hsch & Hz & Hg & Hgs & Hfs & Hd & Hr & Ht).
    apply IH in H
      as (steps & Hst & Hadv & Hg' & Hgs' & Hfs' & Hd' & Hr' & Ht').
    exists (b :: steps).
    inversion Hb as [|s0 xc0 bt0 b0 st0 Hx Hc Ho Hs Hopt Hrest]; subst.
    rewrite Hsch in Hst, Hadv.
    split; [constructor; auto|].
    split.
    { replace (Z.of_nat (length (xc :: batches)))
        with (1 + Z.of_nat (length batches)) by (simpl length; lia).
      eapply advanced_trans; [|exact Hadv].
      rewrite Hs. unfold advanced. simpl. auto. }
    split; [eapply same_globals_trans; eauto|].
    repeat split; try congruence.
    + rewrite Hgs', Hgs. simpl length. lia.
    + rewrite Ht', Ht. simpl. rewrite <- !app_assoc. reflexivity.
Qed.

Lemma train_ok a e epoch st r w w' :
  train a e epoch st w = (Ok r, w') ->
  exists steps,
    steps_of e (st_scheduler st) (epoch_batches a epoch st) steps /\
    advanced (Z.of_nat (length (epoch_batches a epoch st)))
             (st_scheduler st) (st_scheduler (snd r)) /\
    train_sampler (snd r) = with_epoch epoch (train_sampler st) /\
    train_dataset (snd r) = train_dataset st /\
    test_dataset (snd r) = test_dataset st /\
    global_epoch (snd r) = global_epoch st /\
    global_step (snd r) =
      global_step st + Z.of_nat (length (epoch_batches a epoch st)) /\
    epoch_batches a epoch st <> [] /\
    fs w' = fs w /\ dirs w' = dirs w /\ rng_state w' = rng_state w /\
    trace w' = trace w ++ [EvSetEpoch epoch; EvModelTrain]
                 ++ concat (map batch_events steps) ++ [EvGcCollect].
Proof.
  unfold train. intros H. run_inv H.
  apply train_loop_ok in E1
    as (steps & Hst & Hadv & Hg & Hgs & Hfs & Hd & Hr & Ht).
  apply float_div_ok in E3 as (Hn & -> & ->).
  emit_inv. simpl in *. exists steps.
  destruct Hg as (G1 & G2 & G3 & G4). simpl in *.
  fold (with_epoch epoch (train_sampler st)) in *.
  change (loader_batches _) with (epoch_batches a epoch st) in *.
  split; [auto|]. split; [auto|]. repeat split; auto.
  - intros Hnil. rewrite Hnil in Hn. simpl in Hn. lia.
  - rewrite Ht. simpl. rewrite <- !app_assoc. reflexivity.
Qed.

Lemma last_char_cons s : forall c, last_char (String c s) <> None.
Proof.
  induction s as [|c' s IH]; intros c; [discriminate|].
  change (last_char (String c (String c' s))) with (last_char (String c' s)).
  apply IH.
Qed.

Lemma last_char_app s1 s2 :
  last_char (s1 +:+ s2) =
    match last_char s2 with Some c => Some c | None => last_char s1 end.
Proof.
  induction s1 as [|c s1 IH].
  - change (EmptyString +:+ s2) with s2. destruct (last_char s2); reflexivity.
  - change (String c s1 +:+ s2) with (String c (s1 +:+ s2)).
    destruct s1 as [|c' s1].
    + change (EmptyString +:+ s2) with s2.
      destruct s2 as [|c2 s2]; [reflexivity|].
      change (last_char (String c (String c2 s2)))
        with (last_char (String c2 s2)).
      destruct (last_char (String c2 s2)) eqn:E; [reflexivity|].
      by apply last_char_cons in E.
    + change (last_char (String c (String c' s1 +:+ s2)))
        with (last_char (String c' s1 +:+ s2)).
      rewrite IH. reflexivity.
Qed.

Lemma last_char_suffix s1 s2 c :
  last_char s2 = Some c -> last_char (s1 +:+ s2) = Some c.
Proof. intros H. rewrite last_char_app, H. reflexivity. Qed.

Lemma join_step_last path b c :
  last_char b = Some c -> last_char (join_step path b) = Some c.
Proof.
  intros H. unfold join_step. repeat case_match; auto.
  - apply last_char_suffix. exact H.
  - apply last_char_suffix. apply last_char_suffix. exact H.
Qed.

Lemma wav_name_last a step i : last_char (wav_name a step i) = Some "v"%char.
Proof. unfold wav_name. repeat apply last_char_suffix. reflexivity. Qed.

Lemma checkpoint_path_last a step :
  last_char (checkpoint_path a step) = Some "h"%char.
Proof.
  unfold checkpoint_path, os_path_join. simpl. apply join_step_last.
  repeat apply last_char_suffix. reflexivity.
Qed.

Lemma train_loss_path_last a : last_char (train_loss_path a) = Some "y"%char.
Proof. unfold train_loss_path. repeat apply last_char_suffix. reflexivity. Qed.

Lemma eval_loss_path_last a : last_char (eval_loss_path a) = Some "y"%char.
Proof. unfold eval_loss_path. repeat apply last_char_suffix. reflexivity. Qed.

Lemma log_path_last a : last_char (log_path a) = Some "t"%char.
Proof.
  unfold log_path, os_path_join. simpl. apply join_step_last.
  apply last_char_suffix. reflexivity.
Qed.

Lemma train_eval_path_ne a : train_loss_path a <> eval_loss_path a.
Proof.
  unfold train_loss_path, eval_loss_path. intros H.
  do 3 apply (inj (String.app _)) in H. discriminate.
Qed.

Lemma evaluate_loop_ok e batches : forall acc r w w',
  for_each (evaluate_batch e) batches acc w = (Ok r, w') ->
  exists fw,
    forallb is_forward fw = true /\
    fs w' = fs w /\ dirs w' = dirs w /\ rng_state w' = rng_state w /\
    trace w' = trace w ++ fw.
Proof.
  induction batches as [|xc batches IH]; intros acc r w w' H; simpl in H.
  - apply ret_ok in H as [<- <-]. exists []. rewrite app_nil_r. auto.
  - run_inv H. unfold evaluate_batch in E. run_inv E. emit_inv.
    apply IH in H as (fw & Hfw & Hfs & Hd & Hr & Ht). simpl in *.
    exists (EvForward (to_device (use_cuda e) (fst xc))
                      (to_device (use_cuda e) (snd xc)) :: fw).
    repeat split; auto. rewrite Ht, <- app_assoc. reflexivity.
Qed.

Lemma evaluate_ok a e st r w w' :
  evaluate a e st w = (Ok r, w') ->
  exists fw,
    forallb is_forward fw = true /\
    same_but_model st (snd r) /\
    fs w' = fs w /\ dirs w' = dirs w /\ rng_state w' = rng_state w /\
    trace w' = trace w ++ [EvEvaluate] ++ fw.
Proof.
  unfold evaluate. intros H. run_inv H.
  apply evaluate_loop_ok in E0 as (fw & Hfw & Hfs & Hd & Hr & Ht).
  apply float_div_ok in E1 as (Hn & -> & ->).
  emit_inv. simpl in *. exists fw.
  unfold same_but_model, same_globals. simpl.
  repeat split; auto. rewrite Ht, <- app_assoc. reflexivity.
Qed.

Lemma synthesize_ok a e st st' w w' :
  synthesize a e st w = (Ok st', w') ->
  same_but_model st st' /\ dirs w' = dirs w /\
  exists wavs,
    trace w' = trace w ++ [EvSynthesize] ++ wavs /\
    forallb is_write_wav wavs = true /\
    forall p, last_char p <> Some "v"%char -> fs w' !! p = fs w !! p.
Proof.
  unfold synthesize. intros H. run_inv H.
  destruct (loader_batches _) as [|xc rest].
  - emit_inv. simpl. split; [unfold same_but_model, same_globals; simpl; tauto|].
    split; [done|]. exists []. simpl. auto.
  - run_inv H. emit_inv. simpl.
    split; [unfold same_but_model, same_globals; simpl; tauto|].
    split; [done|]. eexists [EvWriteWav _]. split.
    + rewrite <- app_assoc. reflexivity.
    + split; [reflexivity|]. intros p Hp. apply lookup_insert_ne.
      intros <-. apply Hp. apply wav_name_last.
Qed.

Lemma save_checkpoint_run a m o s step epoch w :
  save_checkpoint a m o s step epoch w =
    (Ok tt,
     {| fs := <[checkpoint_path a step :=
                  [CkptChunk (checkpoint_of m o s step epoch)]]> (fs w);
        dirs := dirs w; rng_state := rng_state w;
        trace := trace w ++ [EvTorchSave (checkpoint_path a step)] |}).
Proof. reflexivity. Qed.

Lemma save_if_better_ok a e epoch best el st r w w' :
  save_if_better a e epoch best el st w = (Ok r, w') ->
  same_but_model st (snd r) /\ dirs w' = dirs w /\
  fst r = better best el /\
  (forall p, last_char p <> Some "v"%char -> last_char p <> Some "h"%char ->
             fs w' !! p = fs w !! p) /\
  exists d,
    trace w' = trace w ++ d /\
    (fgt best el = true ->
       (exists wavs,
          d = [EvTorchSave (checkpoint_path a (global_step st)); EvSynthesize]
                ++ wavs /\
          forallb is_write_wav wavs = true) /\
       fs w' !! checkpoint_path a (global_step st) =
         Some [CkptChunk (checkpoint_of (st_model st) (st_optimizer st)
                            (st_scheduler st) (global_step st) epoch)]) /\
    (fgt best el = false -> d = [] /\ fs w' = fs w).
Proof.
  unfold save_if_better, better. destruct (fgt best el) eqn:G; intros H.
  - run_inv H. rewrite save_checkpoint_run in E. injection E as _ <-.
    apply synthesize_ok in E0 as (Hsame & Hd & wavs & Ht & Hw & Hfs).
    emit_inv. simpl in *.
    split; [exact Hsame|]. split; [exact Hd|]. split; [reflexivity|]. split.
    + intros p Hv Hh. rewrite Hfs by done. apply lookup_insert_ne.
      intros <-. apply Hh. apply checkpoint_path_last.
    + exists ([EvTorchSave (checkpoint_path a (global_step st)); EvSynthesize]
                ++ wavs).
      split; [rewrite Ht, <- !app_assoc; reflexivity|].
      split; [|discriminate]. intros _. split; [eauto|].
      rewrite Hfs; [apply lookup_insert_eq|].
      rewrite checkpoint_path_last. discriminate.
  - emit_inv. simpl. unfold same_but_model, same_globals.
    repeat split; auto. exists []. rewrite app_nil_r.
    split; [done|]. split; [discriminate|auto].
Qed.


Lemma persist_losses_ok a epoch tl el ltl ll r w w' :
  persist_losses a epoch tl el ltl ll w = (Ok r, w') ->
  r = (ltl ++ [tl], ll ++ [el]) /\
  dirs w' = dirs w /\ rng_state w' = rng_state w /\
  trace w' = trace w ++ [EvNpSave (train_loss_path a);
                         EvNpSave (eval_loss_path a);
                         EvLogWrite (log_path a)] /\
  fs w' !! train_loss_path a = Some [NpyChunk (ltl ++ [tl])] /\
  fs w' !! eval_loss_path a = Some [NpyChunk (ll ++ [el])] /\
  fs w' !! log_path a =
    Some (default [] (fs w !! log_path a)
            ++ [LineChunk (log_state a tl el epoch)]) /\
  (forall p, last_char p <> Some "y"%char -> last_char p <> Some "t"%char ->
             fs w' !! p = fs w !! p).
Proof.
  unfold persist_losses. intros H. run_inv H. emit_inv. simpl.
  assert (log_path a <> train_loss_path a) as N1.
  { intros Heq. pose proof (log_path_last a) as Hl.
    rewrite Heq, train_loss_path_last in Hl. discriminate. }
  assert (log_path a <> eval_loss_path a) as N2.
  { intros Heq. pose proof (log_path_last a) as Hl.
    rewrite Heq, eval_loss_path_last in Hl. discriminate. }
  pose proof (train_eval_path_ne a) as N3.
  repeat split.
  - rewrite <- !app_assoc. reflexivity.
  - rewrite lookup_insert_ne by done. rewrite lookup_insert_ne by done.
    apply lookup_insert_eq.
  - rewrite lookup_insert_ne by done. apply lookup_insert_eq.
  - rewrite lookup_insert_eq.
    rewrite lookup_insert_ne by done. rewrite lookup_insert_ne by done.
    reflexivity.
  - intros p Hy Ht.
    rewrite !lookup_insert_ne; [done|..]; intros <-.
    + apply Hy, train_loss_path_last.
    + apply Hy, eval_loss_path_last.
    + apply Ht, log_path_last.
Qed.

(** The rank-0 body of an epoch, taken apart. *)
Lemma epoch_body_ok a e epoch lp lp' w w' :
  local_rank a <= 0 ->
  epoch_body a e epoch lp w = (Ok lp', w') ->
  exists tr w1 ev w2 gate w3 w4,
    train a e epoch (lp_state lp) w = (Ok tr, w1) /\
    evaluate a e (snd tr) w1 = (Ok ev, w2) /\
    save_if_better a e epoch (test_loss lp) (fst ev) (snd ev) w2
      = (Ok gate, w3) /\
    persist_losses a epoch (fst tr) (fst ev)
                   (list_train_loss lp) (list_loss lp) w3
      = (Ok (list_train_loss lp ++ [fst tr], list_loss lp ++ [fst ev]), w4) /\
    fs w' = fs w4 /\ dirs w' = dirs w4 /\
    trace w' = trace w4 ++ [EvGcCollect] /\
    lp' = {| lp_state := snd gate; test_loss := fst gate;
             list_train_loss := list_train_loss lp ++ [fst tr];
             list_loss := list_loss lp ++ [fst ev] |}.
Proof.
  intros Hr. unfold epoch_body. intros H. run_inv H.
  destruct (Z.gtb_spec (local_rank a) 0); [lia|]. run_inv H.
  pose proof (persist_losses_ok _ _ _ _ _ _ _ _ _ E2) as (-> & _).
  emit_inv. simpl. exists a0, w0, a1, w1, a2, w2, w3. repeat split; auto.
Qed.

(** The body of an epoch on a process of higher rank. *)
Lemma epoch_body_worker_ok a e epoch lp lp' w w' :
  0 < local_rank a ->
  epoch_body a e epoch lp w = (Ok lp', w') ->
  exists tr w1,
    train a e epoch (lp_state lp) w = (Ok tr, w1) /\
    fs w' = fs w1 /\ dirs w' = dirs w1 /\
    trace w' = trace w1 ++ [EvGcCollect] /\
    lp' = {| lp_state := snd tr; test_loss := test_loss lp;
             list_train_loss := list_train_loss lp;
             list_loss := list_loss lp |}.
Proof.
  intros Hr. unfold epoch_body. intros H. run_inv H.
  destruct (Z.gtb_spec (local_rank a) 0); [|lia]. run_inv H.
  emit_inv. simpl. exists a0, w0. repeat split; auto.
Qed.

Lemma ensure_dir_ok p u w w' :
  ensure_dir p w = (Ok u, w') ->
  fs w' = fs w /\ rng_state w' = rng_state w /\
  (forall q, q ∈ dirs w' <-> q = p \/ q ∈ dirs w) /\
  exists mk, trace w' = trace w ++ mk /\ forallb is_makedirs mk = true.
Proof.
  unfold ensure_dir. case_bool_decide as Hin; intros [= _ <-]; simpl.
  - split; [done|]. split; [done|]. split.
    + intros q. split; [tauto|]. intros [->|]; auto.
    + exists []. rewrite app_nil_r. auto.
  - split; [done|]. split; [done|]. split.
    + intros q. rewrite elem_of_union, elem_of_singleton. tauto.
    + exists [EvMakedirs p]. auto.
Qed.

Lemma make_dirs_ok a u w w' :
  make_dirs a w = (Ok u, w') ->
  fs w' = fs w /\ rng_state w' = rng_state w /\
  (forall q, q ∈ dirs w' <-> In q (script_dirs a) \/ q ∈ dirs w) /\
  exists mk, trace w' = trace w ++ mk /\ forallb is_makedirs mk = true.
Proof.
  unfold make_dirs. intros H. run_inv H.
  apply ensure_dir_ok in E as (F1 & R1 & D1 & m1 & T1 & M1).
  apply ensure_dir_ok in E0 as (F2 & R2 & D2 & m2 & T2 & M2).
  apply ensure_dir_ok in E1 as (F3 & R3 & D3 & m3 & T3 & M3).
  apply ensure_dir_ok in E2 as (F4 & R4 & D4 & m4 & T4 & M4).
  apply ensure_dir_ok in E3 as (F5 & R5 & D5 & m5 & T5 & M5).
  apply ensure_dir_ok in H as (F6 & R6 & D6 & m6 & T6 & M6).
  split; [congruence|]. split; [congruence|]. split.
  - intros q. rewrite D6, D5, D4, D3, D2, D1. unfold script_dirs. simpl.
    intuition congruence.
  - exists (m1 ++ m2 ++ m3 ++ m4 ++ m5 ++ m6). split.
    + rewrite T6, T5, T4, T3, T2, T1, <- !app_assoc. reflexivity.
    + rewrite !forallb_app, M1, M2, M3, M4, M5, M6. reflexivity.
Qed.

Lemma module_level_ok a e g w w' :
  module_level a e w = (Ok g, w') ->
  g = (ljspeech_dataset (data_path a) true (float_of_Q (1 # 10)),
       ljspeech_dataset (data_path a) false (float_of_Q (1 # 10)),
       initial_sampler a e
         (ljspeech_dataset (data_path a) true (float_of_Q (1 # 10)))) /\
  fs w' = fs w /\ rng_state w' = rng_state w /\
  (local_rank a = 0 ->
   forall q, q ∈ dirs w' <-> In q (script_dirs a) \/ q ∈ dirs w) /\
  (local_rank a <> 0 -> dirs w' = dirs w) /\
  exists mk,
    forallb is_makedirs mk = true /\
    (local_rank a <> 0 -> mk = []) /\
    trace w' = trace w ++ fst (setup_events a e) ++ mk
                 ++ snd (setup_events a e).
Proof.
  unfold module_level. intros H. run_inv H.
  destruct (Z.eqb_spec (local_rank a) 0) as [Hr|Hr].
  - apply make_dirs_ok in E2 as (Hfs & Hrng & Hd & mk & Ht & Hmk).
    emit_inv. simpl in *.
    split; [reflexivity|]. split; [exact Hfs|]. split; [exact Hrng|].
    split; [intros _; exact Hd|]. split; [intros; lia|].
    exists mk. split; [exact Hmk|]. split; [intros; lia|].
    rewrite Ht. rewrite <- ?app_assoc. simpl. rewrite <- ?app_assoc.
    reflexivity.
  - emit_inv. simpl in *.
    split; [reflexivity|]. split; [reflexivity|]. split; [reflexivity|].
    split; [intros; lia|]. split; [reflexivity|].
    exists []. split; [reflexivity|]. split; [reflexivity|].
    rewrite <- ?app_assoc. reflexivity.
Qed.

Lemma build_ok a e g st w w' :
  build a e g w = (Ok st, w') ->
  world_size e <> 0 /\
  st_scheduler st =
    {| step_size := 200000 / world_size e; gamma := float_of_Q (1 # 2);
       base_lr := opt_get_lr (adam (model_to (use_cuda e) (build_model a))
                                   (learning_rate a));
       last_epoch := 0 |} /\
  200000 / world_size e <> 0 /\
  global_step st = 0 /\ global_epoch st = 0 /\
  train_sampler st = snd g /\ train_dataset st = fst (fst g) /\
  test_dataset st = snd (fst g) /\
  (exists m, st_model st = ddp_wrap m) /\
  fs w' = fs w /\ dirs w' = dirs w /\ rng_state w' = rng_state w /\
  exists act,
    trace w' = trace w
      ++ [EvBuildModel (load_step a >? 0); EvModelTo (use_cuda e);
          EvAdam (learning_rate a);
          EvStepLR (200000 / world_size e) (float_of_Q (1 # 2))]
      ++ act ++ [EvAmpInitialize amp_opt_level; EvDistributedDataParallel] /\
    ((0 < load_step a /\ act = []) \/
     (load_step a <= 0 /\
      exists x c, act = [EvActNormInit; EvForward x c])).
Proof.
  unfold build. intros H. run_inv H.
  unfold floor_div in E2. destruct (Z.eqb_spec (world_size e) 0) as [|Hws];
    [discriminate|].
  unfold new_StepLR in E3. run_inv E3.
  destruct (Z.eqb_spec a3 0) as [|Hsz]; [discriminate|].
  destruct (Z.gtb_spec (load_step a) 0) as [Hl|Hl].
  - emit_inv. simpl.
    repeat (split; [first [assumption | reflexivity | eauto]|]).
    exists []. split; [|left; split; [lia|reflexivity]].
    rewrite <- ?app_assoc. reflexivity.
  - unfold actnorm_init in E4.
    destruct (loader_batches _) as [|xc rest]; [discriminate|].
    run_inv E4. emit_inv. simpl.
    repeat (split; [first [assumption | reflexivity | eauto]|]).
    eexists [EvActNormInit; EvForward _ _].
    split; [|right; split; [lia|eauto]].
    rewrite <- ?app_assoc. reflexivity.
Qed.

Lemma torch_load_run p ck w :
  fs w !! p = Some [CkptChunk ck] ->
  torch_load p w =
    (Ok ck, {| fs := fs w; dirs := dirs w; rng_state := rng_state w;
               trace := trace w ++ [EvTorchLoad p] |}).
Proof.
  intros H. unfold torch_load, bind, emit, read_file. simpl. rewrite H.
  reflexivity.
Qed.

Lemma torch_load_ok p ck w w' :
  torch_load p w = (Ok ck, w') ->
  fs w !! p = Some [CkptChunk ck] /\
  w' = {| fs := fs w; dirs := dirs w; rng_state := rng_state w;
          trace := trace w ++ [EvTorchLoad p] |}.
Proof.
  unfold torch_load. intros H. run_inv H. emit_inv.
  unfold read_file in E0. simpl in E0.
  destruct (fs w !! p) as [content|] eqn:F; [|discriminate].
  injection E0 as <- <-.
  destruct content as [|[] []]; try discriminate.
  apply ret_ok in H as [<- <-]. auto.
Qed.

Lemma load_checkpoint_run a step st ck m o w :
  fs w !! checkpoint_path a step = Some [CkptChunk ck] ->
  model_loaded (ck_state_dict ck) (st_model st) = Some m ->
  opt_load_state_dict (ck_optimizer ck) (st_optimizer st) = Some o ->
  load_checkpoint a step st w =
    (Ok (restored ck m o st),
     {| fs := fs w; dirs := dirs w; rng_state := rng_state w;
        trace := trace w ++ [EvTorchLoad (checkpoint_path a step)]
                   ++ model_load_events (ck_state_dict ck) (st_model st)
                   ++ [EvOptimizerLoad; EvSchedulerLoad] |}).
Proof.
  intros Hf Hm Ho. unfold load_checkpoint.
  rewrite (bind_run _ _ _ _ _ (torch_load_run _ _ _ Hf)).
  unfold model_loaded, model_load_events in *.
  unfold bind, try_except_RuntimeError, load_model_state, bind, emit.
  simpl. destruct (model_load_state_dict (ck_state_dict ck) (st_model st)).
  - injection Hm as ->. simpl. rewrite Ho. simpl.
    rewrite <- ?app_assoc. reflexivity.
  - simpl. rewrite Hm. simpl. rewrite Ho. simpl.
    rewrite <- ?app_assoc. reflexivity.
Qed.

Lemma load_checkpoint_ok a step st st' w w' :
  load_checkpoint a step st w = (Ok st', w') ->
  exists ck m o,
    fs w !! checkpoint_path a step = Some [CkptChunk ck] /\
    model_loaded (ck_state_dict ck) (st_model st) = Some m /\
    opt_load_state_dict (ck_optimizer ck) (st_optimizer st) = Some o /\
    st' = restored ck m o st /\
    fs w' = fs w /\ dirs w' = dirs w /\ rng_state w' = rng_state w /\
    trace w' = trace w ++ [EvTorchLoad (checkpoint_path a step)]
                 ++ model_load_events (ck_state_dict ck) (st_model st)
                 ++ [EvOptimizerLoad; EvSchedulerLoad].
Proof.
  intros H. pose proof H as H0. unfold load_checkpoint in H. run_inv H.
  apply torch_load_ok in E as [Hf ->].
  destruct (model_loaded (ck_state_dict a0) (st_model st)) as [m|] eqn:Hm.
  - destruct (opt_load_state_dict (ck_optimizer a0) (st_optimizer st))
      as [o|] eqn:Ho; [|discriminate].
    rewrite (load_checkpoint_run _ _ _ _ _ _ _ Hf Hm Ho) in H0.
    injection H0 as <- <-. exists a0, m, o. simpl. repeat split; auto.
  - exfalso. unfold model_loaded in Hm.
    unfold try_except_RuntimeError, load_model_state, bind, emit in E0.
    simpl in E0.
    destruct (model_load_state_dict (ck_state_dict a0) (st_model st));
      [discriminate|].
    simpl in E0. rewrite Hm in E0. discriminate.
Qed.

Lemma np_load_ok p xs w w' :
  np_load p w = (Ok xs, w') ->
  fs w !! p = Some [NpyChunk xs] /\
  w' = {| fs := fs w; dirs := dirs w; rng_state := rng_state w;
          trace := trace w ++ [EvNpLoad p] |}.
Proof.
  unfold np_load. intros H. run_inv H. emit_inv.
  unfold read_file in E0. simpl in E0.
  destruct (fs w !! p) as [content|] eqn:F; [|discriminate].
  injection E0 as <- <-.
  destruct content as [|[] []]; try discriminate.
  apply ret_ok in H as [<- <-]. auto.
Qed.

Lemma fresh_or_resume_ok a st lp w w' :
  fresh_or_resume a st w = (Ok lp, w') ->
  fs w' = fs w /\ dirs w' = dirs w /\ rng_state w' = rng_state w /\
  ((load_step a = 0 /\ w' = w /\
    lp = {| lp_state := st; test_loss := float_of_Q 100;
            list_train_loss := []; list_loss := [] |}) \/
   (load_step a <> 0 /\
    exists ck m o ltl ll,
      fs w !! checkpoint_path a (load_step a) = Some [CkptChunk ck] /\
      model_loaded (ck_state_dict ck) (st_model st) = Some m /\
      opt_load_state_dict (ck_optimizer ck) (st_optimizer st) = Some o /\
      fs w !! train_loss_path a = Some [NpyChunk ltl] /\
      fs w !! eval_loss_path a = Some [NpyChunk ll] /\
      slice_to (ck_global_epoch ck) ll <> [] /\
      lp = {| lp_state := restored ck m o st;
              test_loss := np_min (slice_to (ck_global_epoch ck) ll);
              list_train_loss := slice_to (ck_global_epoch ck) ltl;
              list_loss := slice_to (ck_global_epoch ck) ll |} /\
      trace w' = trace w ++ resume_events a ck (st_model st))).
Proof.
  unfold fresh_or_resume. destruct (Z.eqb_spec (load_step a) 0) as [Hl|Hl].
  - intros H. apply ret_ok in H as [<- <-]. repeat split; auto.
  - intros H. run_inv H.
    apply load_checkpoint_ok in E
      as (ck & m & o & Hf & Hm & Ho & -> & Hfs & Hd & Hr & Ht).
    apply np_load_ok in E0 as [Hn1 ->].
    apply np_load_ok in E1 as [Hn2 ->]. simpl in *.
    unfold np_min_of in E2.
    destruct (slice_to (ck_global_epoch ck) a2) as [|x xs] eqn:Hs;
      [discriminate|].
    emit_inv. simpl.
    split; [exact Hfs|]. split; [exact Hd|]. split; [exact Hr|].
    right. split; [exact Hl|].
    exists ck, m, o, a1, a2. rewrite Hfs in Hn1, Hn2.
    repeat split; auto.
    + rewrite Hs. discriminate.
    + rewrite Hs. reflexivity.
    + rewrite Ht. unfold resume_events. simpl.
      rewrite <- ?app_assoc. simpl. rewrite <- ?app_assoc. reflexivity.
Qed.

Lemma main_ok a e lp w w' :
  main a e w = (Ok lp, w') ->
  exists g w1 st w2 lp0 w3,
    module_level a e w = (Ok g, w1) /\
    build a e g w1 = (Ok st, w2) /\
    fresh_or_resume a st w2 = (Ok lp0, w3) /\
    for_each (epoch_body a e) (epoch_range a (lp_state lp0)) lp0 w3
      = (Ok lp, w').
Proof.
  unfold main. intros H. run_inv H.
  exists a0, w0, a1, w1, a2, w2. auto.
Qed.

End Runs.

(** ** The fallback dictionary of [load_checkpoint] *)

Section StripPrefix.
Context {V : Type}.

Lemma dict_set_keys (k : string) (v : V) d k' :
  In k' (map fst (dict_set k v d)) <-> k' = k \/ In k' (map fst d).
Proof.
  induction d as [|[k0 v0] d IH]; simpl.
  - intuition.
  - destruct (String.eqb_spec k k0) as [->|Hne]; simpl.
    + intuition.
    + rewrite IH. intuition.
Qed.

Lemma dict_set_fresh (k : string) (v : V) d :
  ~ In k (map fst d) -> dict_set k v d = d ++ [(k, v)].
Proof.
  induction d as [|[k0 v0] d IH]; simpl; intros Hn; [reflexivity|].
  destruct (String.eqb_spec k k0) as [->|Hne]; [tauto|].
  rewrite IH; [reflexivity|tauto].
Qed.

Lemma strip_fold_keys (l : list (string * V)) : forall acc k,
  In k (map fst (fold_left (fun d kv => dict_set (str_from 7 (fst kv))
                                                 (snd kv) d) l acc))
  <-> In k (map fst acc) \/ In k (map (fun kv => str_from 7 (fst kv)) l).
Proof.
  induction l as [|kv l IH]; intros acc k; simpl.
  - intuition.
  - rewrite IH, dict_set_keys. intuition.
Qed.

Lemma strip_fold_nodup (l : list (string * V)) : forall acc,
  NoDup (map fst acc ++ map (fun kv => str_from 7 (fst kv)) l) ->
  fold_left (fun d kv => dict_set (str_from 7 (fst kv)) (snd kv) d) l acc
    = acc ++ map strip_key l.
Proof.
  induction l as [|kv l IH]; intros acc Hnd; simpl.
  - rewrite app_nil_r. reflexivity.
  - simpl in Hnd. apply NoDup_app in Hnd as (Ha & Hdis & Hl).
    apply NoDup_cons in Hl as [Hkv Hl].
    rewrite dict_set_fresh.
    + rewrite IH.
      * rewrite <- app_assoc. reflexivity.
      * rewrite map_app. simpl. rewrite <- app_assoc. simpl.
        apply NoDup_app. split; [exact Ha|]. split.
        -- intros x Hx [->|Hin]%elem_of_cons.
           ++ eapply Hdis; [exact Hx|]. left.
           ++ eapply Hdis; [exact Hx|]. right. exact Hin.
        -- apply NoDup_cons. split; assumption.
    + intros Hin. eapply Hdis.
      * apply list_elem_of_In. exact Hin.
      * left.
Qed.

End StripPrefix.

(** ** The properties of the script *)

Section Checkpoints.
Context {L : TorchLib}.

Lemma endswith_sep_cons c s :
  s <> EmptyString -> endswith_sep (String c s) = endswith_sep s.
Proof. destruct s; [done|reflexivity]. Qed.

Lemma endswith_sep_app s1 s2 :
  s2 <> EmptyString -> endswith_sep (s1 +:+ s2) = endswith_sep s2.
Proof.
  intros Hne. induction s1 as [|c s1 IH]; [reflexivity|].
  change (String c s1 +:+ s2) with (String c (s1 +:+ s2)).
  rewrite endswith_sep_cons; [exact IH|]. destruct s1, s2; done.
Qed.

Lemma str_app_assoc s1 s2 s3 : (s1 +:+ s2) +:+ s3 = s1 +:+ s2 +:+ s3.
Proof.
  induction s1 as [|c s1 IH]; [reflexivity|].
  change (String c s1 +:+ s2) with (String c (s1 +:+ s2)).
  change (String c (s1 +:+ s2) +:+ s3) with (String c ((s1 +:+ s2) +:+ s3)).
  rewrite IH. reflexivity.
Qed.

Lemma app_not_empty s1 s2 : s2 <> EmptyString -> s1 +:+ s2 <> EmptyString.
Proof. destruct s1, s2; done. Qed.

Lemma is_empty_false s : is_empty s = false <-> s <> EmptyString.
Proof. destruct s; simpl; split; congruence. Qed.

(** The checkpoint path in the plain case: a directory and a model name
    that are not empty and carry no separator at their ends. *)
Lemma checkpoint_path_plain a step :
  is_empty (save a) = false -> endswith_sep (save a) = false ->
  is_empty (model_name a) = false ->
  startswith_sep (model_name a) = false ->
  endswith_sep (model_name a) = false ->
  checkpoint_path a step =
    save a +:+ "/" +:+ model_name a +:+ "/"
      +:+ "checkpoint_step" +:+ format_09d step +:+ ".pth".
Proof.
  intros H1 H2 H3 H4 H5. unfold checkpoint_path, os_path_join. simpl.
  unfold join_step at 2. rewrite H4, H1, H2. simpl.
  unfold join_step. simpl.
  replace (is_empty (save a +:+ "/" +:+ model_name a)) with false.
  2:{ symmetry. apply is_empty_false. apply app_not_empty. discriminate. }
  replace (endswith_sep (save a +:+ "/" +:+ model_name a)) with false.
  2:{ symmetry. rewrite endswith_sep_app by discriminate.
      apply is_empty_false in H3.
      change ("/" +:+ model_name a) with (String "/" (model_name a)).
      rewrite endswith_sep_cons by done. exact H5. }
  simpl. rewrite ?str_app_assoc. reflexivity.
Qed.

(** C1. [save_checkpoint] writes the model's weights, the optimizer's and
    the scheduler's state, [global_step] and [global_epoch] to the
    checkpoint file of [global_step]; [load_checkpoint] of that step, from
    any file system that still holds the file, returns with the library
    having loaded exactly the saved weights and optimizer state, with the
    saved scheduler, and with the saved [global_step] and [global_epoch],
    so the epoch loop of a resume starts at the saved epoch plus one. *)
Theorem checkpoint_roundtrip a m o s step epoch w0 w2 st m' o' :
  let w1 := snd (save_checkpoint a m o s step epoch w0) in
  fs w2 !! checkpoint_path a step = fs w1 !! checkpoint_path a step ->
  model_load_state_dict (model_state_dict m) (st_model st) = Some m' ->
  opt_load_state_dict (opt_state_dict o) (st_optimizer st) = Some o' ->
  checkpoint_path a step =
    os_path_join (save a)
      [model_name a; "checkpoint_step" +:+ format_09d step +:+ ".pth"] /\
  fs w1 !! checkpoint_path a step =
    Some [CkptChunk {| ck_state_dict := model_state_dict m;
                       ck_optimizer := opt_state_dict o;
                       ck_scheduler := s;
                       ck_global_step := step;
                       ck_global_epoch := epoch |}] /\
  (exists st' w3,
     load_checkpoint a step st w2 = (Ok st', w3) /\
     st_model st' = m' /\ st_optimizer st' = o' /\
     st_scheduler st' = s /\
     global_step st' = step /\ global_epoch st' = epoch /\
     epoch_range a st' = range (epoch + 1) (epochs a + 1)) /\
  (forall lp w3,
     load_step a = step -> step <> 0 ->
     fresh_or_resume a st w2 = (Ok lp, w3) ->
     st_model (lp_state lp) = m' /\ st_optimizer (lp_state lp) = o' /\
     st_scheduler (lp_state lp) = s /\
     global_step (lp_state lp) = step /\
     epoch_range a (lp_state lp) = range (epoch + 1) (epochs a + 1)).
Proof.
  intros w1 Hfs Hm Ho.
  assert (fs w1 !! checkpoint_path a step =
          Some [CkptChunk (checkpoint_of m o s step epoch)]) as Hsaved.
  { subst w1. rewrite save_checkpoint_run. simpl. apply lookup_insert_eq. }
  rewrite Hsaved in Hfs.
  assert (model_loaded (ck_state_dict (checkpoint_of m o s step epoch))
                       (st_model st) = Some m') as Hml.
  { unfold model_loaded. simpl. rewrite Hm. reflexivity. }
  split; [reflexivity|]. split; [exact Hsaved|]. split.
  - eexists _, _. split.
    + apply (load_checkpoint_run a step st _ m' o' w2 Hfs Hml Ho).
    + repeat split.
  - intros lp w3 Hstep Hnz Hres.
    apply fresh_or_resume_ok in Hres as (_ & _ & _ & [[Hz _]|(_ & Hr)]);
      [congruence|].
    destruct Hr as (ck & m1 & o1 & ltl & ll & Hf & Hm1 & Ho1 & _ & _ & _
                    & -> & _).
    rewrite Hstep, Hfs in Hf. injection Hf as <-.
    rewrite Hml in Hm1. injection Hm1 as <-.
    simpl in Ho1. rewrite Ho in Ho1. injection Ho1 as <-.
    repeat split.
Qed.

(** C9. [load_checkpoint] first loads the stored dictionary into the
    model; when that raises [RuntimeError] it loads a new dictionary whose
    keys are the stored keys without their first seven characters; after
    either load the optimizer state, the scheduler state, [global_step]
    and [global_epoch] are those of the checkpoint. *)
Theorem load_checkpoint_fallback a step st ck o w :
  fs w !! checkpoint_path a step = Some [CkptChunk ck] ->
  opt_load_state_dict (ck_optimizer ck) (st_optimizer st) = Some o ->
  let sd := ck_state_dict ck in
  let rest := [EvOptimizerLoad; EvSchedulerLoad] in
  (forall m,
     model_load_state_dict sd (st_model st) = Some m ->
     exists st' w',
       load_checkpoint a step st w = (Ok st', w') /\
       st_model st' = m /\ st_optimizer st' = o /\
       st_scheduler st' = ck_scheduler ck /\
       global_step st' = ck_global_step ck /\
       global_epoch st' = ck_global_epoch ck /\
       trace w' = trace w ++ [EvTorchLoad (checkpoint_path a step);
                              EvModelLoadStateDict sd] ++ rest) /\
  (forall m,
     model_load_state_dict sd (st_model st) = None ->
     model_load_state_dict (strip_module_prefix sd) (st_model st) = Some m ->
     exists st' w',
       load_checkpoint a step st w = (Ok st', w') /\
       st_model st' = m /\ st_optimizer st' = o /\
       st_scheduler st' = ck_scheduler ck /\
       global_step st' = ck_global_step ck /\
       global_epoch st' = ck_global_epoch ck /\
       trace w' = trace w ++ [EvTorchLoad (checkpoint_path a step);
                              EvModelLoadStateDict sd;
                              EvModelLoadStateDict (strip_module_prefix sd)]
                    ++ rest) /\
  (forall k, In k (map fst (strip_module_prefix sd)) <->
             In k (map (fun kv => str_from 7 (fst kv)) sd)) /\
  (NoDup (map (fun kv => str_from 7 (fst kv)) sd) ->
   strip_module_prefix sd = map (fun kv => (str_from 7 (fst kv), snd kv)) sd).
Proof.
  intros Hf Ho sd rest. repeat split.
  - intros m Hm.
    assert (model_loaded sd (st_model st) = Some m) as Hml.
    { unfold model_loaded. rewrite Hm. reflexivity. }
    eexists _, _. split.
    + apply (load_checkpoint_run a step st ck m o w Hf Hml Ho).
    + simpl. unfold model_load_events. fold sd. rewrite Hm. repeat split.
  - intros m Hn Hm.
    assert (model_loaded sd (st_model st) = Some m) as Hml.
    { unfold model_loaded. rewrite Hn. exact Hm. }
    eexists _, _. split.
    + apply (load_checkpoint_run a step st ck m o w Hf Hml Ho).
    + simpl. unfold model_load_events. fold sd. rewrite Hn. repeat split.
  - unfold strip_module_prefix. rewrite strip_fold_keys. simpl. tauto.
  - unfold strip_module_prefix. rewrite strip_fold_keys. simpl. tauto.
  - intros Hnd. unfold strip_module_prefix.
    rewrite strip_fold_nodup; [reflexivity|exact Hnd].
Qed.

End Checkpoints.

(** ** The epoch loop *)

Section EpochLoop.
Context {L : TorchLib}.

Lemma has_app p d1 d2 : has p (d1 ++ d2) <-> has p d1 \/ has p d2.
Proof.
  unfold has. split.
  - intros (ev & Hin & Hp). apply in_app_or in Hin as [Hin|Hin]; eauto.
  - intros [(ev & Hin & Hp)|(ev & Hin & Hp)]; exists ev;
      (split; [apply in_or_app; auto|exact Hp]).
Qed.

Lemma has_none (p q : event -> bool) d :
  forallb q d = true -> (forall ev, q ev = true -> p ev = false) ->
  ~ has p d.
Proof.
  intros Hq Hpq (ev & Hin & Hp).
  rewrite forallb_forall in Hq. apply Hq, Hpq in Hin. congruence.
Qed.

Lemma batch_events_train steps :
  forallb train_event (concat (map batch_events steps)) = true.
Proof.
  induction steps as [|b steps IH]; [reflexivity|]. simpl. exact IH.
Qed.

Lemma train_part_train epoch steps :
  forallb train_event (train_part epoch steps) = true.
Proof.
  unfold train_part. simpl. rewrite forallb_app, batch_events_train.
  reflexivity.
Qed.

Lemma forallb_weaken (p q : event -> bool) d :
  (forall ev, p ev = true -> q ev = true) ->
  forallb p d = true -> forallb q d = true.
Proof.
  intros Hpq. rewrite !forallb_forall. auto.
Qed.

(** One epoch on the first process. *)
Lemma epoch_rank0_ok a e epoch lp lp' w w' :
  local_rank a <= 0 ->
  epoch_body a e epoch lp w = (Ok lp', w') ->
  exists tl el d,
    trace w' = trace w ++ d /\
    epoch_shape a epoch d /\
    has is_evaluate d /\
    (has is_save d <-> fgt (test_loss lp) el = true) /\
    (has is_synthesize d <-> fgt (test_loss lp) el = true) /\
    test_loss lp' = better (test_loss lp) el /\
    list_train_loss lp' = list_train_loss lp ++ [tl] /\
    list_loss lp' = list_loss lp ++ [el] /\
    dirs w' = dirs w.
Proof.
  intros Hr H.
  apply epoch_body_ok in H
    as (tr & w1 & ev & w2 & gate & w3 & w4 & Ht & He & Hg & Hp & Hfs & Hd
        & Htr & ->); [|exact Hr].
  apply train_ok in Ht
    as (steps & _ & _ & _ & _ & _ & _ & _ & _ & _ & Hd1 & _ & Ht).
  apply evaluate_ok in He as (fw & Hfw & _ & _ & Hd2 & _ & He).
  apply save_if_better_ok in Hg
    as (_ & Hd3 & Hbest & _ & gd & Hg & Hyes & Hno).
  apply persist_losses_ok in Hp as (_ & Hd4 & _ & Hp & _).
  exists (fst tr), (fst ev),
    (train_part epoch steps ++ [EvEvaluate] ++ fw ++ gd ++ persist_part a
       ++ [EvGcCollect]).
  assert (~ has is_save (train_part epoch steps)) as N1.
  { eapply has_none; [apply train_part_train|]. by intros []. }
  assert (~ has is_synthesize (train_part epoch steps)) as N2.
  { eapply has_none; [apply train_part_train|]. by intros []. }
  assert (~ has is_save fw) as N3.
  { eapply has_none; [exact Hfw|]. by intros []. }
  assert (~ has is_synthesize fw) as N4.
  { eapply has_none; [exact Hfw|]. by intros []. }
  assert (forall p, (forall x, p (EvNpSave x) = false) ->
                    (forall x, p (EvLogWrite x) = false) ->
                    p EvGcCollect = false -> p EvEvaluate = false ->
                    ~ has p [EvEvaluate] /\
                    ~ has p (persist_part a) /\ ~ has p [EvGcCollect]) as N5.
  { intros p P1 P2 P3 P4. repeat split; intros (x & Hin & Hx);
      simpl in Hin; intuition (subst; congruence). }
  destruct (N5 is_save) as (N6 & N7 & N7'); try done.
  destruct (N5 is_synthesize) as (N8 & N9 & N9'); try done.
  split.
  { rewrite Htr, Hp, Hg, He, Ht. unfold train_part, persist_part.
    rewrite <- ?app_assoc. simpl. rewrite <- ?app_assoc. reflexivity. }
  split.
  { exists steps. right. split; [exact Hr|]. exists fw, gd.
    split; [exact Hfw|]. split; [|reflexivity].
    destruct (fgt (test_loss lp) (fst ev)) eqn:G.
    - destruct Hyes as [(wavs & -> & Hw) _]; [reflexivity|].
      right. eauto.
    - destruct Hno as [-> _]; [reflexivity|]. left. reflexivity. }
  split.
  { exists EvEvaluate. split; [|reflexivity].
    apply in_or_app. right. left. reflexivity. }
  split.
  { rewrite !has_app. destruct (fgt (test_loss lp) (fst ev)) eqn:G.
    - destruct Hyes as [(wavs & -> & Hw) _]; [reflexivity|].
      split; [reflexivity|]. intros _. right. right. right. left.
      exists (EvTorchSave (checkpoint_path a (global_step (snd ev)))).
      split; [left|]; reflexivity.
    - destruct Hno as [-> _]; [reflexivity|].
      split; [|discriminate].
      intros [?|[?|[?|[(x & [] & _)|[?|?]]]]]; tauto. }
  split.
  { rewrite !has_app. destruct (fgt (test_loss lp) (fst ev)) eqn:G.
    - destruct Hyes as [(wavs & -> & Hw) _]; [reflexivity|].
      split; [reflexivity|]. intros _. right. right. right. left.
      exists EvSynthesize. split; [right; left|]; reflexivity.
    - destruct Hno as [-> _]; [reflexivity|].
      split; [|discriminate].
      intros [?|[?|[?|[(x & [] & _)|[?|?]]]]]; tauto. }
  simpl. repeat split; auto. congruence.
Qed.


(** The epochs of any process: the shape of the trace. *)
Lemma epoch_loop_shape a e es :
  forall lp lp' w w',
  for_each (epoch_body a e) es lp w = (Ok lp', w') ->
  exists ds,
    Forall2 (epoch_shape a) es ds /\
    trace w' = trace w ++ concat ds.
Proof.
  induction es as [|epoch es IH]; intros lp lp' w w' H; simpl in H.
  - apply ret_ok in H as [<- <-]. exists []. simpl.
    rewrite app_nil_r. split; [constructor|reflexivity].
  - run_inv H. apply IH in H as (ds & Hds & Ht').
    destruct (Z_lt_le_dec 0 (local_rank a)) as [Hr|Hr].
    + apply epoch_body_worker_ok in E
        as (tr & w1 & Htr & _ & _ & Ht & _); [|exact Hr].
      apply train_ok in Htr
        as (steps & _ & _ & _ & _ & _ & _ & _ & _ & _ & _ & _ & Htr).
      exists ((train_part epoch steps ++ [EvGcCollect]) :: ds). split.
      * constructor; [|exact Hds]. exists steps. left. auto.
      * rewrite Ht', Ht, Htr. unfold train_part. simpl.
        rewrite <- ?app_assoc. simpl. rewrite <- ?app_assoc. reflexivity.
    + apply epoch_rank0_ok in E as (tl & el & d & Ht & Hsh & _); [|exact Hr].
      exists (d :: ds). split; [constructor; auto|].
      rewrite Ht', Ht. simpl. rewrite <- app_assoc. reflexivity.
Qed.

(** The script up to the epoch loop. *)
Lemma main_prefix a e lp w w' :
  main a e w = (Ok lp, w') ->
  exists mk act res st lp0 w3,
    forallb is_makedirs mk = true /\
    (local_rank a <> 0 -> mk = []) /\
    actnorm_part a act /\
    world_size e <> 0 /\
    global_epoch st = 0 /\
    (exists m, st_model st = ddp_wrap m) /\
    train_sampler st =
      initial_sampler a e
        (ljspeech_dataset (data_path a) true (float_of_Q (1 # 10))) /\
    train_dataset st =
      ljspeech_dataset (data_path a) true (float_of_Q (1 # 10)) /\
    step_size (st_scheduler st) = 200000 / world_size e /\
    gamma (st_scheduler st) = float_of_Q (1 # 2) /\
    last_epoch (st_scheduler st) = 0 /\
    ((load_step a = 0 /\ res = [] /\ lp0 = fresh_loop st) \/
     (load_step a <> 0 /\
      exists ck m o ltl ll,
        fs w !! checkpoint_path a (load_step a) = Some [CkptChunk ck] /\
        fs w !! train_loss_path a = Some [NpyChunk ltl] /\
        fs w !! eval_loss_path a = Some [NpyChunk ll] /\
        res = resume_events a ck (st_model st) /\
        lp0 = resumed_loop ck m o ltl ll st)) /\
    fs w3 = fs w /\
    trace w3 = trace w ++ fst (setup_events a e) ++ mk
                 ++ snd (setup_events a e) ++ build_part a e act ++ res /\
    for_each (epoch_body a e) (epoch_range a (lp_state lp0)) lp0 w3
      = (Ok lp, w').
Proof.
  intros H.
  apply main_ok in H as (g & w1 & st & w2 & lp0 & w3 & Hm & Hb & Hf & Hl).
  apply module_level_ok in Hm
    as (-> & Hfs1 & _ & _ & _ & mk & Hmk & Hmk0 & Ht1).
  apply build_ok in Hb
    as (Hws & Hsch & _ & _ & Hge & Hsm & Hds & _ & Hddp & Hfs2 & _ & _
        & act & Ht2 & Hact).
  apply fresh_or_resume_ok in Hf as (Hfs3 & _ & _ & Hres).
  simpl in Hsm, Hds.
  assert (trace w2 = trace w ++ fst (setup_events a e) ++ mk
                       ++ snd (setup_events a e) ++ build_part a e act) as Ht.
  { rewrite Ht2, Ht1. unfold build_part. rewrite <- ?app_assoc. reflexivity. }
  destruct Hres as [(Hl0 & -> & ->)|(Hl0 & ck & m & o & ltl & ll & Hck & _ & _
                                     & Hn1 & Hn2 & _ & -> & Ht3)].
  - exists mk, act, [], st, (fresh_loop st), w2.
    rewrite Hsch. simpl. rewrite app_nil_r.
    repeat (split; [first [assumption | reflexivity | congruence]|]).
    split; [left; auto|].
    split; [congruence|]. split; [exact Ht|exact Hl].
  - exists mk, act, (resume_events a ck (st_model st)), st,
      (resumed_loop ck m o ltl ll st), w3.
    rewrite Hsch. simpl.
    repeat (split; [first [assumption | reflexivity | congruence]|]).
    split.
    { right. split; [exact Hl0|]. exists ck, m, o, ltl, ll.
      rewrite Hfs2, Hfs1 in Hck, Hn1, Hn2. auto. }
    split; [congruence|]. split; [|exact Hl].
    rewrite Ht3, Ht. unfold build_part.
    repeat first [progress simpl | rewrite <- !app_assoc]. reflexivity.
Qed.

End EpochLoop.

Section Gating.
Context {L : TorchLib}.









(** C8. A process of rank above zero only trains: whatever the outcome of
    the script it writes no file, makes no directory and never evaluates,
    saves a checkpoint, synthesizes or writes a loss or log file, and each
    of its epochs is [train] followed by a garbage collection.  The
    module-level code makes directories on the first process only, where
    all six exist afterwards. *)
Theorem rank_gating a e :
  (0 < local_rank a ->
   forall w r w', main a e w = (r, w') ->
     fs w' = fs w /\ dirs w' = dirs w /\
     exists d, trace w' = trace w ++ d /\
               forallb (fun ev => negb (rank0_event ev)
                                  && negb (is_makedirs ev)) d = true) /\
  (0 < local_rank a ->
   forall epoch lp w lp' w', epoch_body a e epoch lp w = (Ok lp', w') ->
     exists tr w1,
       train a e epoch (lp_state lp) w = (Ok tr, w1) /\
       fs w' = fs w1 /\ dirs w' = dirs w1 /\
       trace w' = trace w1 ++ [EvGcCollect] /\
       test_loss lp' = test_loss lp /\
       list_train_loss lp' = list_train_loss lp /\
       list_loss lp' = list_loss lp) /\
  (local_rank a <> 0 ->
   forall w r w', module_level a e w = (r, w') ->
     dirs w' = dirs w /\
     exists d, trace w' = trace w ++ d /\
               forallb (fun ev => negb (is_makedirs ev)) d = true) /\
  (local_rank a = 0 ->
   forall w g w', module_level a e w = (Ok g, w') ->
     forall q, In q (script_dirs a) -> q ∈ dirs w').
Proof.
  assert (forall d, forallb worker_event d = true ->
            forallb (fun ev => negb (rank0_event ev)
                               && negb (is_makedirs ev)) d = true) as Hw.
  { intros d. apply forallb_weaken. by intros []. }
  split; [|split; [|split]].
  - intros Hr w r w' H.
    apply main_quiet in H as (Hd & Hf & d & Ht & Hd'); [|exact Hr].
    split; [exact Hf|]. split; [exact Hd|]. exists d. auto.
  - intros Hr epoch lp w lp' w' H.
    apply epoch_body_worker_ok in H
      as (tr & w1 & Ht & Hf & Hd & Htr & ->); [|exact Hr].
    exists tr, w1. simpl. auto 10.
  - intros Hr w r w' H.
    apply module_level_quiet in H as (Hd & _ & d & Ht & Hd'); [|exact Hr].
    split; [exact Hd|]. exists d. split; [exact Ht|].
    revert Hd'. apply forallb_weaken. by intros [].
  - intros Hr w g w' H q Hq.
    apply module_level_ok in H as (_ & _ & _ & Hd & _). apply Hd; auto.
Qed.

End Gating.

Section Training.
Context {L : TorchLib}.







End Training.

Section Orchestration.
Context {L : TorchLib}.







End Orchestration.

(** ** Dictionaries *)

Section Dictionaries.
Context {V : Type}.

Lemma dict_get_set (k k' : string) (v : V) d :
  dict_get k' (dict_set k v d)
    = if String.eqb k' k then Some v else dict_get k' d.
Proof.
  induction d as [|[k0 v0] d IH]; simpl.
  - destruct (String.eqb_spec k' k); reflexivity.
  - destruct (String.eqb_spec k k0) as [->|Hne]; simpl.
    + destruct (String.eqb_spec k' k0); reflexivity.
    + rewrite IH. destruct (String.eqb_spec k' k0) as [E1|E1];
        destruct (String.eqb_spec k' k) as [E2|E2]; congruence.
Qed.

Lemma dict_set_nodup (k : string) (v : V) d :
  NoDup (map fst d) -> NoDup (map fst (dict_set k v d)).
Proof.
  induction d as [|[k0 v0] d IH]; simpl; intros Hnd.
  - apply NoDup_cons. split; [apply not_elem_of_nil|constructor].
  - destruct (String.eqb_spec k k0) as [->|Hne]; simpl; [exact Hnd|].
    apply NoDup_cons in Hnd as [Hk Hd]. apply NoDup_cons. split; [|auto].
    rewrite list_elem_of_In, dict_set_keys. rewrite list_elem_of_In in Hk.
    intros [->|Hin]; congruence.
Qed.

Lemma dict_set_length (k : string) (v : V) d :
  (length (dict_set k v d) <= S (length d))%nat.
Proof.
  induction d as [|[k0 v0] d IH]; simpl; [lia|].
  destruct (String.eqb k k0); simpl; lia.
Qed.

Lemma strip_fold_get (l : list (string * V)) : forall acc k,
  dict_get k (fold_left (fun d kv => dict_set (str_from 7 (fst kv))
                                              (snd kv) d) l acc)
  = fold_left (fun r kv => if String.eqb (str_from 7 (fst kv)) k
                           then Some (snd kv) else r) l (dict_get k acc).
Proof.
  induction l as [|kv l IH]; intros acc k; simpl; [reflexivity|].
  rewrite IH, dict_get_set. rewrite (String.eqb_sym k). reflexivity.
Qed.

Lemma strip_fold_unique (l : list (string * V)) : forall acc,
  NoDup (map fst acc) ->
  NoDup (map fst (fold_left (fun d kv => dict_set (str_from 7 (fst kv))
                                                  (snd kv) d) l acc)).
Proof.
  induction l as [|kv l IH]; intros acc Hnd; simpl; [exact Hnd|].
  apply IH, dict_set_nodup, Hnd.
Qed.

Lemma strip_fold_length (l : list (string * V)) : forall acc,
  (length (fold_left (fun d kv => dict_set (str_from 7 (fst kv))
                                           (snd kv) d) l acc)
   <= length acc + length l)%nat.
Proof.
  induction l as [|kv l IH]; intros acc; simpl; [lia|].
  pose proof (IH (dict_set (str_from 7 (fst kv)) (snd kv) acc)) as H1.
  pose proof (dict_set_length (str_from 7 (fst kv)) (snd kv) acc) as H2.
  etrans; [exact H1|]. lia.
Qed.

End Dictionaries.

(** ** The step number in a file name *)

Section Formatting.

Lemma pretty_N_char_nonzero x :
  (0 < x < 10)%N -> pretty_N_char x <> "0"%char /\ pretty_N_char x <> "-"%char.
Proof.
  intros [H1 H2]. unfold pretty_N_char.
  destruct x as [|p]; [lia|].
  do 4 (destruct p as [p|p|]; try (split; discriminate)); lia.
Qed.

Lemma pretty_N_char_not_dash x : pretty_N_char x <> "-"%char.
Proof. unfold pretty_N_char. repeat case_match; discriminate. Qed.

Lemma pretty_N_go_head x : forall s,
  (0 < x)%N ->
  exists c rest, pretty_N_go x s = String c rest /\
                 c <> "0"%char /\ c <> "-"%char.
Proof.
  induction (N.lt_wf_0 x) as [x _ IH]. intros s Hx.
  rewrite pretty_N_go_step by done.
  destruct (decide (x `div` 10 = 0)%N) as [Hd|Hd].
  - rewrite Hd, pretty_N_go_0.
    assert (x < 10)%N as Hlt.
    { destruct (N.lt_ge_cases x 10) as [|Hge]; [done|].
      assert (1 <= x `div` 10)%N by (apply N.div_le_lower_bound; lia).
      rewrite Hd in H. lia. }
    rewrite N.mod_small by exact Hlt.
    destruct (pretty_N_char_nonzero x) as [? ?]; [lia|]. eauto.
  - apply IH.
    + apply N.div_lt; lia.
    + destruct (x `div` 10)%N; [done|lia].
Qed.

Lemma pretty_canonical (n : Z) : 0 <= n -> canonical (pretty n).
Proof.
  intros Hn. destruct n as [|p|p]; [left; reflexivity| |lia].
  right. unfold pretty, pretty_Z, pretty, pretty_positive, pretty, pretty_N.
  destruct (decide (N.pos p = 0%N)); [lia|].
  apply pretty_N_go_head. lia.
Qed.

Lemma str_length_app s1 s2 :
  String.length (s1 +:+ s2) = (String.length s1 + String.length s2)%nat.
Proof.
  induction s1 as [|c s1 IH]; [reflexivity|].
  change (String c s1 +:+ s2) with (String c (s1 +:+ s2)).
  simpl. rewrite IH. reflexivity.
Qed.

Lemma str_app_inv_tail s1 : forall s2 t, s1 +:+ t = s2 +:+ t -> s1 = s2.
Proof.
  induction s1 as [|c s1 IH]; intros s2 t H.
  - destruct s2 as [|c2 s2]; [reflexivity|].
    apply (f_equal String.length) in H.
    rewrite !str_length_app in H. simpl in H. lia.
  - destruct s2 as [|c2 s2].
    + apply (f_equal String.length) in H.
      rewrite !str_length_app in H. simpl in H. lia.
    + change (String c (s1 +:+ t) = String c2 (s2 +:+ t)) in H.
      injection H as -> H. f_equal. eapply IH; eauto.
Qed.

Lemma canonical_not_empty s : canonical s -> s <> EmptyString.
Proof. intros [->|(c & rest & -> & _)]; discriminate. Qed.

Lemma zeros_app_canonical k1 : forall k2 p1 p2,
  canonical p1 -> canonical p2 ->
  zeros k1 +:+ p1 = zeros k2 +:+ p2 -> p1 = p2.
Proof.
  assert (forall k p q, canonical p -> canonical q ->
                        p = zeros (S k) +:+ q -> False) as Hno.
  { intros k p q Hp Hq H.
    change (zeros (S k) +:+ q) with (String "0" (zeros k +:+ q)) in H.
    destruct Hp as [->|(c & rest & -> & Hc & _)].
    - injection H as H. apply canonical_not_empty in Hq.
      apply (f_equal String.length) in H. rewrite str_length_app in H.
      destruct q; [done|]. simpl in H. lia.
    - injection H as -> _. congruence. }
  induction k1 as [|k1 IH]; intros k2 p1 p2 H1 H2 H.
  - destruct k2 as [|k2]; [exact H|]. exfalso. eapply (Hno k2 p1 p2); eauto.
  - destruct k2 as [|k2].
    + exfalso. eapply (Hno k1 p2 p1); eauto.
    + change (String "0" (zeros k1 +:+ p1) = String "0" (zeros k2 +:+ p2)) in H.
      injection H as H. eapply IH; eauto.
Qed.

Lemma zfill_head_not_dash w p :
  canonical p -> head_char (zfill w p) <> Some "-"%char.
Proof.
  intros Hp. unfold zfill. destruct (w - String.length p)%nat as [|k].
  - simpl. destruct Hp as [->|(c & rest & -> & _ & Hc)]; simpl; congruence.
  - simpl. discriminate.
Qed.

Lemma format_09d_inj n1 n2 : format_09d n1 = format_09d n2 -> n1 = n2.
Proof.
  unfold format_09d.
  destruct (Z.ltb_spec n1 0) as [H1|H1], (Z.ltb_spec n2 0) as [H2|H2];
    intros H.
  - change ("-" +:+ ?s) with (String "-" s) in H. injection H as H.
    apply zeros_app_canonical in H; try (apply pretty_canonical; lia).
    apply (inj pretty) in H. lia.
  - exfalso. apply (f_equal head_char) in H. simpl in H.
    symmetry in H. revert H. apply zfill_head_not_dash.
    apply pretty_canonical. lia.
  - exfalso. apply (f_equal head_char) in H. simpl in H.
    revert H. apply zfill_head_not_dash. apply pretty_canonical. lia.
  - apply zeros_app_canonical in H; try (apply pretty_canonical; lia).
    apply (inj pretty) in H. exact H.
Qed.

End Formatting.

(** ** Checkpoint files *)

Section CheckpointFiles.
Context {L : TorchLib}.

Lemma join_step_inj_r path b1 b2 :
  startswith_sep b1 = false -> startswith_sep b2 = false ->
  join_step path b1 = join_step path b2 -> b1 = b2.
Proof.
  intros H1 H2. unfold join_step. rewrite H1, H2.
  destruct (is_empty path || endswith_sep path); intros H.
  - by apply (inj (String.append path)) in H.
  - apply (inj (String.append path)) in H.
    by apply (inj (String.append "/")) in H.
Qed.

Lemma checkpoint_path_inj a s1 s2 :
  checkpoint_path a s1 = checkpoint_path a s2 -> s1 = s2.
Proof.
  unfold checkpoint_path, os_path_join. simpl. intros H.
  apply join_step_inj_r in H; [|reflexivity|reflexivity].
  apply (inj (String.append "checkpoint_step")) in H.
  apply str_app_inv_tail in H. by apply format_09d_inj.
Qed.

(** X1. Checkpoints of different steps never share a file: the
    nine-character, sign-aware step number in the file name determines the
    step, so a second [save_checkpoint] at another step writes another path
    and leaves the first checkpoint in place. *)
Theorem checkpoints_do_not_collide a m o s step epoch m2 o2 s2 step2 epoch2 w :
  step2 <> step ->
  let w1 := snd (save_checkpoint a m o s step epoch w) in
  let w2 := snd (save_checkpoint a m2 o2 s2 step2 epoch2 w1) in
  checkpoint_path a step2 <> checkpoint_path a step /\
  fs w2 !! checkpoint_path a step =
    Some [CkptChunk (checkpoint_of m o s step epoch)] /\
  fs w2 !! checkpoint_path a step2 =
    Some [CkptChunk (checkpoint_of m2 o2 s2 step2 epoch2)].
Proof.
  intros Hne w1 w2.
  assert (checkpoint_path a step2 <> checkpoint_path a step) as Hp.
  { intros H. apply Hne. by apply checkpoint_path_inj in H. }
  split; [exact Hp|]. subst w1 w2. rewrite !save_checkpoint_run. simpl.
  split.
  - rewrite lookup_insert_ne by exact Hp. apply lookup_insert_eq.
  - apply lookup_insert_eq.
Qed.

End CheckpointFiles.

(** ** What [train] and [evaluate] end with *)

Section Outcomes.
Context {L : TorchLib}.

Lemma train_batch_total e xc acc w :
  step_size (st_scheduler (snd acc)) <> 0 ->
  exists r w', train_batch e xc acc w = (Ok r, w') /\
               step_size (st_scheduler (snd r))
                 = step_size (st_scheduler (snd acc)).
Proof.
  intros Hz. unfold train_batch, scheduler_step, bind, emit. simpl.
  destruct (Z.eqb_spec (step_size (st_scheduler (snd acc))) 0); [done|].
  simpl. eexists _, _. split; reflexivity.
Qed.

Lemma train_loop_total e batches : forall acc w,
  step_size (st_scheduler (snd acc)) <> 0 ->
  exists r w', for_each (train_batch e) batches acc w = (Ok r, w').
Proof.
  induction batches as [|xc batches IH]; intros acc w Hz; simpl.
  - eexists _, _. reflexivity.
  - destruct (train_batch_total e xc acc w Hz) as (r & w1 & E & Hs).
    rewrite (bind_run _ _ _ _ _ E). apply IH. congruence.
Qed.

(** X2. [train] on a train loader without batches raises
    [ZeroDivisionError] at [epoch_loss / len(train_loader)], after
    [set_epoch], [model.train()] and [gc.collect()] and with the files
    untouched; on a loader with at least one batch and a scheduler whose
    [step_size] is not zero it returns. *)
Theorem train_outcome a e epoch st w :
  (epoch_batches a epoch st = [] ->
   exists w',
     train a e epoch st w = (Raise ZeroDivisionError, w') /\
     fs w' = fs w /\
     trace w' = trace w ++ [EvSetEpoch epoch; EvModelTrain; EvGcCollect]) /\
  (epoch_batches a epoch st <> [] ->
   step_size (st_scheduler st) <> 0 ->
   exists r w', train a e epoch st w = (Ok r, w')).
Proof.
  split.
  - intros Hb. unfold train.
    change (loader_batches (train_loader a _))
      with (epoch_batches a epoch st).
    rewrite Hb. eexists. split; [reflexivity|]. simpl.
    split; [reflexivity|]. rewrite <- !app_assoc. reflexivity.
  - intros Hb Hz. unfold train.
    change (loader_batches (train_loader a _))
      with (epoch_batches a epoch st).
    set (st1 := set_model _ _).
    unfold bind at 1. simpl. unfold bind at 1. simpl.
    destruct (train_loop_total e (epoch_batches a epoch st)
                (float_of_Q 0, st1)
                {| fs := fs w; dirs := dirs w; rng_state := rng_state w;
                   trace := (trace w ++ [EvSetEpoch epoch])
                              ++ [EvModelTrain] |} Hz)
      as (r & w1 & E).
    rewrite (bind_run _ _ _ _ _ E).
    unfold bind, emit, float_div. simpl.
    destruct (Z.eqb_spec (Z.of_nat (length (epoch_batches a epoch st))) 0)
      as [Hn|Hn].
    + destruct (epoch_batches a epoch st); [done|simpl in Hn; lia].
    + eexists _, _. reflexivity.
Qed.

Lemma evaluate_loop_total e batches : forall acc w,
  exists r w', for_each (evaluate_batch e) batches acc w = (Ok r, w') /\
               fs w' = fs w.
Proof.
  induction batches as [|xc batches IH]; intros acc w; simpl.
  - eexists _, _. split; reflexivity.
  - unfold bind at 1, evaluate_batch at 1, bind, emit, ret. simpl.
    edestruct IH as (r & w' & E & Hf). eexists _, _.
    split; [exact E|]. rewrite Hf. reflexivity.
Qed.

(** X3. [evaluate] on an empty test loader raises
    [ZeroDivisionError] at [epoch_loss /= len(test_loader)] right after
    [model.eval()]; on any other test loader it returns, and the optimizer,
    the scheduler, [global_step], [global_epoch], the files and the
    directories are as before. *)
Theorem evaluate_outcome a e st w :
  (loader_batches (test_loader a st) = [] ->
   exists w',
     evaluate a e st w = (Raise ZeroDivisionError, w') /\
     fs w' = fs w /\ trace w' = trace w ++ [EvEvaluate]) /\
  (loader_batches (test_loader a st) <> [] ->
   exists r w',
     evaluate a e st w = (Ok r, w') /\
     st_optimizer (snd r) = st_optimizer st /\
     st_scheduler (snd r) = st_scheduler st /\
     global_step (snd r) = global_step st /\
     global_epoch (snd r) = global_epoch st /\
     fs w' = fs w /\ dirs w' = dirs w).
Proof.
  split.
  - intros Hb. unfold evaluate. rewrite Hb.
    eexists. split; [reflexivity|]. split; reflexivity.
  - intros Hb.
    assert (exists r w', evaluate a e st w = (Ok r, w')) as (r & w' & E).
    { unfold evaluate. unfold bind at 1, emit. simpl.
      edestruct (evaluate_loop_total e (loader_batches (test_loader a st)))
        as (r & w1 & E & _).
      rewrite (bind_run _ _ _ _ _ E).
      unfold bind, float_div.
      destruct (Z.eqb_spec
                  (Z.of_nat (length (loader_batches (test_loader a st)))) 0)
        as [Hn|Hn].
      - destruct (loader_batches (test_loader a st)); [done|simpl in Hn; lia].
      - eexists _, _. reflexivity. }
    exists r, w'. split; [exact E|].
    apply evaluate_ok in E
      as (fw & _ & (H1 & H2 & H3 & _ & _ & _ & H4) & Hf & Hd & _).
    auto 10.
Qed.

End Outcomes.

(** ** The files of an epoch *)

Section Files.
Context {L : TorchLib}.

Lemma synthesize_frame a e st st' w w' :
  synthesize a e st w = (Ok st', w') ->
  forall p, p <> wav_name a (global_step st) 0 -> fs w' !! p = fs w !! p.
Proof.
  unfold synthesize. intros H. run_inv H.
  destruct (loader_batches _) as [|xc rest].
  - emit_inv. reflexivity.
  - run_inv H. emit_inv. simpl. intros p Hp. by rewrite lookup_insert_ne.
Qed.

Lemma save_if_better_frame a e epoch best el st r w w' :
  save_if_better a e epoch best el st w = (Ok r, w') ->
  forall p, p <> checkpoint_path a (global_step st) ->
            p <> wav_name a (global_step st) 0 ->
            fs w' !! p = fs w !! p.
Proof.
  unfold save_if_better. destruct (fgt best el); intros H.
  - run_inv H. rewrite save_checkpoint_run in E. injection E as _ <-.
    emit_inv. intros p H1 H2.
    rewrite (synthesize_frame _ _ _ _ _ _ E0) by exact H2. simpl.
    by rewrite lookup_insert_ne.
  - emit_inv. reflexivity.
Qed.

Lemma persist_losses_frame a epoch tl el ltl ll r w w' :
  persist_losses a epoch tl el ltl ll w = (Ok r, w') ->
  forall p, p <> train_loss_path a -> p <> eval_loss_path a ->
            p <> log_path a -> fs w' !! p = fs w !! p.
Proof.
  unfold persist_losses. intros H. run_inv H. emit_inv. simpl.
  intros p H1 H2 H3. by rewrite !lookup_insert_ne.
Qed.

(** X4. An epoch of the first process advances [global_step] by the
    number of batches of its shard and writes at most five files: the
    checkpoint and the sample of the new step, the two loss histories and
    the log; every other path keeps its content. *)
Theorem epoch_file_footprint a e epoch lp lp' w w' :
  local_rank a <= 0 ->
  epoch_body a e epoch lp w = (Ok lp', w') ->
  let step := global_step (lp_state lp)
              + Z.of_nat (length (epoch_batches a epoch (lp_state lp))) in
  global_step (lp_state lp') = step /\
  forall p,
    p <> checkpoint_path a step -> p <> wav_name a step 0 ->
    p <> train_loss_path a -> p <> eval_loss_path a -> p <> log_path a ->
    fs w' !! p = fs w !! p.
Proof.
  intros Hr H step.
  apply epoch_body_ok in H
    as (tr & w1 & ev & w2 & gate & w3 & w4 & Ht & He & Hg & Hp & Hfs & _ & _
        & ->); [|exact Hr].
  apply train_ok in Ht
    as (steps & _ & _ & _ & _ & _ & _ & Hgs & _ & Hf1 & _).
  apply evaluate_ok in He as (fw & _ & (_ & _ & Hgs2 & _) & Hf2 & _).
  pose proof (save_if_better_frame _ _ _ _ _ _ _ _ _ Hg) as Hf3.
  apply save_if_better_ok in Hg as ((_ & _ & Hgs3 & _) & _).
  pose proof (persist_losses_frame _ _ _ _ _ _ _ _ _ Hp) as Hf4.
  simpl. split; [subst step; congruence|].
  intros p P1 P2 P3 P4 P5. rewrite Hfs, Hf4 by assumption.
  rewrite Hf3; [congruence| |]; rewrite Hgs2, Hgs; assumption.
Qed.

(** What a rank-0 epoch leaves in the log and the two loss files. *)
Lemma epoch_rank0_files a e epoch lp lp' w w' :
  local_rank a <= 0 ->
  epoch_body a e epoch lp w = (Ok lp', w') ->
  exists tl el,
    list_train_loss lp' = list_train_loss lp ++ [tl] /\
    list_loss lp' = list_loss lp ++ [el] /\
    fs w' !! train_loss_path a = Some [NpyChunk (list_train_loss lp')] /\
    fs w' !! eval_loss_path a = Some [NpyChunk (list_loss lp')] /\
    fs w' !! log_path a =
      Some (default [] (fs w !! log_path a)
              ++ [LineChunk (log_state a tl el epoch)]) /\
    global_step (lp_state lp') - last_epoch (st_scheduler (lp_state lp'))
      = global_step (lp_state lp) - last_epoch (st_scheduler (lp_state lp)).
Proof.
  intros Hr H.
  apply epoch_body_ok in H
    as (tr & w1 & ev & w2 & gate & w3 & w4 & Ht & He & Hg & Hp & Hfs & _ & _
        & ->); [|exact Hr].
  apply train_ok in Ht
    as (steps & _ & (_ & _ & _ & Hle) & _ & _ & _ & _ & Hgs & _ & Hf1 & _).
  apply evaluate_ok in He as (fw & _ & (_ & Hs2 & Hgs2 & _) & Hf2 & _).
  apply save_if_better_ok in Hg as ((_ & Hs3 & Hgs3 & _) & _ & _ & Hf3 & _).
  apply persist_losses_ok in Hp as (_ & _ & _ & _ & Hn1 & Hn2 & Hlog & _).
  exists (fst tr), (fst ev). simpl. rewrite Hfs.
  split; [reflexivity|]. split; [reflexivity|].
  split; [exact Hn1|]. split; [exact Hn2|]. split.
  - rewrite Hlog. rewrite Hf3, Hf2, Hf1; [reflexivity|..];
      rewrite log_path_last; discriminate.
  - rewrite Hs3, Hgs3, Hs2, Hgs2, Hle, Hgs. lia.
Qed.

Lemma epoch_loop_grows a e es :
  local_rank a <= 0 ->
  forall lp lp' w w',
  for_each (epoch_body a e) es lp w = (Ok lp', w') ->
  exists tls els,
    length tls = length es /\ length els = length es /\
    list_train_loss lp' = list_train_loss lp ++ tls /\
    list_loss lp' = list_loss lp ++ els /\
    length (default [] (fs w' !! log_path a))
      = (length (default [] (fs w !! log_path a)) + length es)%nat.
Proof.
  intros Hr. induction es as [|epoch es IH]; intros lp lp' w w' H; simpl in H.
  - apply ret_ok in H as [<- <-]. exists [], []. simpl.
    rewrite !app_nil_r. repeat split; lia.
  - run_inv H.
    apply epoch_rank0_files in E
      as (tl & el & Hl1 & Hl2 & _ & _ & Hlog & _); [|exact Hr].
    apply IH in H as (tls & els & Hn1 & Hn2 & Hl1' & Hl2' & Hlen).
    exists (tl :: tls), (el :: els). simpl.
    split; [lia|]. split; [lia|].
    split; [rewrite Hl1', Hl1, <- app_assoc; reflexivity|].
    split; [rewrite Hl2', Hl2, <- app_assoc; reflexivity|].
    rewrite Hlen, Hlog. simpl. rewrite length_app. simpl. lia.
Qed.

(** X5. Over any run of epochs of the first process, each epoch
    appends its training and its evaluation loss to the two histories and
    one line, with its epoch number and these two losses, to the log; the
    log keeps what it held before, and after the last epoch the two [.npy]
    files hold the complete histories. *)
Theorem log_accumulates a e es :
  local_rank a <= 0 ->
  forall lp lp' w w',
  for_each (epoch_body a e) es lp w = (Ok lp', w') ->
  exists losses,
    length losses = length es /\
    list_train_loss lp' = list_train_loss lp ++ map fst losses /\
    list_loss lp' = list_loss lp ++ map snd losses /\
    default [] (fs w' !! log_path a) =
      default [] (fs w !! log_path a)
        ++ map (fun x => LineChunk (log_state a (fst (snd x)) (snd (snd x))
                                      (fst x)))
               (zip es losses) /\
    (es <> [] ->
     fs w' !! train_loss_path a = Some [NpyChunk (list_train_loss lp')] /\
     fs w' !! eval_loss_path a = Some [NpyChunk (list_loss lp')]).
Proof.
  intros Hr. induction es as [|epoch es IH]; intros lp lp' w w' H.
  - simpl in H. apply ret_ok in H as [<- <-]. exists []. simpl.
    rewrite !app_nil_r. split; [reflexivity|]. split; [reflexivity|].
    split; [reflexivity|]. split; [reflexivity|]. intros Hne. done.
  - change (bind (epoch_body a e epoch lp)
              (fun lp1 => for_each (epoch_body a e) es lp1) w = (Ok lp', w'))
      in H.
    apply bind_ok in H as (lp1 & w1 & E & H).
    apply epoch_rank0_files in E
      as (tl & el & Hl1 & Hl2 & Hn1 & Hn2 & Hlog & _); [|exact Hr].
    destruct es as [|epoch' es].
    + simpl in H. apply ret_ok in H as [<- <-].
      exists [(tl, el)]. simpl.
      split; [reflexivity|]. split; [exact Hl1|]. split; [exact Hl2|].
      split; [rewrite Hlog; reflexivity|]. intros _. split; assumption.
    + apply IH in H as (losses & Hlen & Hl1' & Hl2' & Hlog' & Hnpy).
      exists ((tl, el) :: losses).
      split; [simpl; rewrite Hlen; reflexivity|].
      split; [simpl; rewrite Hl1', Hl1, <- app_assoc; reflexivity|].
      split; [simpl; rewrite Hl2', Hl2, <- app_assoc; reflexivity|].
      split.
      * rewrite Hlog', Hlog.
        change (zip (epoch :: epoch' :: es) ((tl, el) :: losses))
          with ((epoch, (tl, el)) :: zip (epoch' :: es) losses).
        simpl. rewrite <- app_assoc. reflexivity.
      * intros _. apply Hnpy. discriminate.
Qed.

End Files.

(** ** Whole runs *)

Section WholeRuns.
Context {L : TorchLib}.

Lemma range_length lo hi : length (range lo hi) = Z.to_nat (hi - lo).
Proof. unfold range. apply length_seqZ. Qed.

Lemma range_elem lo hi x : x ∈ range lo hi <-> lo <= x < hi.
Proof. unfold range. rewrite elem_of_seqZ. lia. Qed.

Lemma epoch_body_global_epoch a e epoch lp lp' w w' :
  epoch_body a e epoch lp w = (Ok lp', w') ->
  global_epoch (lp_state lp') = global_epoch (lp_state lp).
Proof.
  intros H. destruct (Z_lt_le_dec 0 (local_rank a)) as [Hr|Hr].
  - apply epoch_body_worker_ok in H as (tr & w1 & Ht & _ & _ & _ & ->);
      [|exact Hr].
    apply train_ok in Ht as (steps & _ & _ & _ & _ & _ & Hge & _).
    exact Hge.
  - apply epoch_body_ok in H
      as (tr & w1 & ev & w2 & gate & w3 & w4 & Ht & He & Hg & _ & _ & _ & _
          & ->); [|exact Hr].
    apply train_ok in Ht as (steps & _ & _ & _ & _ & _ & Hge & _).
    apply evaluate_ok in He as (fw & _ & (_ & _ & _ & _ & _ & _ & Hge2) & _).
    apply save_if_better_ok in Hg as ((_ & _ & _ & _ & _ & _ & Hge3) & _).
    simpl. congruence.
Qed.

Lemma epoch_loop_global_epoch a e es : forall lp lp' w w',
  for_each (epoch_body a e) es lp w = (Ok lp', w') ->
  global_epoch (lp_state lp') = global_epoch (lp_state lp).
Proof.
  induction es as [|epoch es IH]; intros lp lp' w w' H; simpl in H.
  - apply ret_ok in H as [<- <-]. reflexivity.
  - run_inv H. apply epoch_body_global_epoch in E. apply IH in H. congruence.
Qed.

(** X6. The epoch loop never changes [global_epoch]: at the end of
    [main] it is 0 on a fresh start and the checkpoint's value on a resume.
    When [args.epochs] does not exceed it, the script runs no epoch: no file
    changes, and the trace has no [set_epoch], no backward pass and no
    evaluation, checkpoint, sample, history or log event. *)
Theorem finished_run_trains_nothing a e w lp w' :
  main a e w = (Ok lp, w') ->
  ((load_step a = 0 /\ global_epoch (lp_state lp) = 0) \/
   (load_step a <> 0 /\
    exists ck,
      fs w !! checkpoint_path a (load_step a) = Some [CkptChunk ck] /\
      global_epoch (lp_state lp) = ck_global_epoch ck)) /\
  (epochs a <= global_epoch (lp_state lp) ->
   fs w' = fs w /\
   exists d,
     trace w' = trace w ++ d /\
     forallb (fun ev => negb (is_set_epoch ev) && negb (is_backward ev)
                        && negb (rank0_event ev)) d = true).
Proof.
  intros H.
  apply main_prefix in H
    as (mk & act & res & st & lp0 & w3 & Hmk & _ & Hact & _ & Hge & _ & _
        & _ & _ & _ & _ & Hres & Hfs & Ht & Hloop).
  pose proof (epoch_loop_global_epoch _ _ _ _ _ _ _ Hloop) as Hsame.
  split.
  - destruct Hres as [(Hl & _ & ->)|(Hl & ck & m & o & ltl & ll & Hck & _ & _
                                     & _ & ->)].
    + left. split; [exact Hl|]. rewrite Hsame. exact Hge.
    + right. split; [exact Hl|]. exists ck. split; [exact Hck|].
      rewrite Hsame. reflexivity.
  - intros Hdone. rewrite Hsame in Hdone.
    assert (epoch_range a (lp_state lp0) = []) as Hnil.
    { unfold epoch_range. apply length_zero_iff_nil.
      rewrite range_length. lia. }
    rewrite Hnil in Hloop. apply ret_ok in Hloop as [_ <-].
    split; [exact Hfs|]. eexists. split; [exact Ht|].
    rewrite !forallb_app.
    replace (forallb _ mk) with true.
    2:{ symmetry. revert Hmk. apply forallb_weaken. by intros []. }
    replace (forallb _ (build_part a e act)) with true.
    2:{ symmetry. unfold build_part.
        destruct Hact as [[_ ->]|(_ & x & c & ->)]; reflexivity. }
    replace (forallb _ res) with true.
    2:{ symmetry.
        destruct Hres as [(_ & -> & _)|(_ & ck & m & o & ltl & ll & _ & _
                                        & _ & -> & _)]; [reflexivity|].
        unfold resume_events, model_load_events. case_match; reflexivity. }
    reflexivity.
Qed.

Lemma slice_to_length {A} n (l : list A) :
  0 <= n <= Z.of_nat (length l) -> length (slice_to n l) = Z.to_nat n.
Proof.
  intros H. unfold slice_to. destruct (Z.leb_spec 0 n) as [_|]; [|lia].
  rewrite length_take. lia.
Qed.

(** X7. On the first process, a fresh start ends with [args.epochs]
    entries in each loss history and as many new lines in the log.  A resume
    from a checkpoint of epoch [k], with [0 <= k <= args.epochs] and loaded
    histories of at least [k] entries, also ends with [args.epochs] entries,
    the first [k] of them being those loaded. *)
Theorem history_lengths a e w lp w' :
  local_rank a = 0 ->
  main a e w = (Ok lp, w') ->
  (load_step a = 0 ->
   length (list_train_loss lp) = Z.to_nat (epochs a) /\
   length (list_loss lp) = Z.to_nat (epochs a) /\
   length (default [] (fs w' !! log_path a))
     = (length (default [] (fs w !! log_path a)) + Z.to_nat (epochs a))%nat) /\
  (load_step a <> 0 ->
   forall ck ltl ll,
     fs w !! checkpoint_path a (load_step a) = Some [CkptChunk ck] ->
     fs w !! train_loss_path a = Some [NpyChunk ltl] ->
     fs w !! eval_loss_path a = Some [NpyChunk ll] ->
     0 <= ck_global_epoch ck <= epochs a ->
     ck_global_epoch ck <= Z.of_nat (length ltl) ->
     ck_global_epoch ck <= Z.of_nat (length ll) ->
     length (list_train_loss lp) = Z.to_nat (epochs a) /\
     length (list_loss lp) = Z.to_nat (epochs a) /\
     take (Z.to_nat (ck_global_epoch ck)) (list_train_loss lp)
       = take (Z.to_nat (ck_global_epoch ck)) ltl /\
     take (Z.to_nat (ck_global_epoch ck)) (list_loss lp)
       = take (Z.to_nat (ck_global_epoch ck)) ll).
Proof.
  intros Hr H.
  apply main_prefix in H
    as (mk & act & res & st & lp0 & w3 & _ & _ & _ & _ & Hge & _ & _ & _ & _
        & _ & _ & Hres & Hfs & _ & Hloop).
  apply epoch_loop_grows in Hloop
    as (tls & els & Hn1 & Hn2 & Hl1 & Hl2 & Hlog); [|lia].
  unfold epoch_range in Hn1, Hn2, Hlog. rewrite range_length in Hn1, Hn2, Hlog.
  split.
  - intros Hl. destruct Hres as [(_ & _ & ->)|[Hn _]]; [|lia].
    simpl in *. rewrite Hge in Hn1, Hn2, Hlog.
    replace (epochs a + 1 - (0 + 1)) with (epochs a) in Hn1, Hn2, Hlog by lia.
    rewrite Hl1, Hl2, Hlog, Hfs, Hn1, Hn2. auto.
  - intros Hl ck ltl ll Hck Hf1 Hf2 Hge' Hlt Hle.
    destruct Hres as [[Hz _]|(_ & ck' & m & o & ltl' & ll' & Hck' & Hf1'
                              & Hf2' & _ & ->)]; [lia|].
    rewrite Hck in Hck'. injection Hck' as <-.
    rewrite Hf1 in Hf1'. injection Hf1' as <-.
    rewrite Hf2 in Hf2'. injection Hf2' as <-.
    simpl in Hn1, Hn2, Hl1, Hl2.
    pose proof (slice_to_length (ck_global_epoch ck) ltl ltac:(lia)) as S1.
    pose proof (slice_to_length (ck_global_epoch ck) ll ltac:(lia)) as S2.
    rewrite Hl1, Hl2, !length_app, Hn1, Hn2, S1, S2.
    split; [lia|]. split; [lia|].
    rewrite !take_app_le by lia.
    unfold slice_to. destruct (Z.leb_spec 0 (ck_global_epoch ck)); [|lia].
    rewrite !take_take, !Nat.min_id. split; reflexivity.
Qed.

Lemma epoch_counter_invariant a e epoch lp lp' w w' :
  epoch_body a e epoch lp w = (Ok lp', w') ->
  global_step (lp_state lp') - last_epoch (st_scheduler (lp_state lp'))
    = global_step (lp_state lp) - last_epoch (st_scheduler (lp_state lp)).
Proof.
  intros H. destruct (Z_lt_le_dec 0 (local_rank a)) as [Hr|Hr].
  - apply epoch_body_worker_ok in H as (tr & w1 & Ht & _ & _ & _ & ->);
      [|exact Hr].
    apply train_ok in Ht
      as (steps & _ & (_ & _ & _ & Hle) & _ & _ & _ & _ & Hgs & _).
    simpl. rewrite Hle, Hgs. lia.
  - apply epoch_rank0_files in H as (_ & _ & _ & _ & _ & _ & _ & H);
      [exact H|exact Hr].
Qed.

Lemma epoch_loop_counter a e es : forall lp lp' w w',
  for_each (epoch_body a e) es lp w = (Ok lp', w') ->
  global_step (lp_state lp') - last_epoch (st_scheduler (lp_state lp'))
    = global_step (lp_state lp) - last_epoch (st_scheduler (lp_state lp)).
Proof.
  induction es as [|epoch es IH]; intros lp lp' w w' H; simpl in H.
  - apply ret_ok in H as [<- <-]. reflexivity.
  - run_inv H. apply epoch_counter_invariant in E. apply IH in H. lia.
Qed.

(** X8. [global_step] and the scheduler's step count advance
    together: on a fresh start they are equal at the end of [main], and on a
    resume their difference is the one stored in the checkpoint. *)
Theorem step_counter_matches_scheduler a e w lp w' :
  main a e w = (Ok lp, w') ->
  (load_step a = 0 ->
   global_step (lp_state lp) = last_epoch (st_scheduler (lp_state lp))) /\
  (load_step a <> 0 ->
   exists ck,
     fs w !! checkpoint_path a (load_step a) = Some [CkptChunk ck] /\
     global_step (lp_state lp) - last_epoch (st_scheduler (lp_state lp))
       = ck_global_step ck - last_epoch (ck_scheduler ck)).
Proof.
  intros H.
  apply main_ok in H as (g & w1 & st & w2 & lp0 & w3 & Hm & Hb & Hf & Hloop).
  apply module_level_ok in Hm as (_ & Hfs1 & _).
  apply build_ok in Hb
    as (_ & Hs & _ & Hgs & _ & _ & _ & _ & _ & Hfs2 & _).
  apply fresh_or_resume_ok in Hf as (_ & _ & _ & Hres).
  apply epoch_loop_counter in Hloop.
  split.
  - intros Hl. destruct Hres as [(_ & _ & ->)|[Hn _]]; [|lia].
    simpl in Hloop. rewrite Hs, Hgs in Hloop. simpl in Hloop. lia.
  - intros Hl.
    destruct Hres as [[Hz _]|(_ & ck & m & o & ltl & ll & Hck & _ & _ & _
                              & _ & _ & -> & _)]; [lia|].
    exists ck. split; [rewrite <- Hfs1, <- Hfs2; exact Hck|].
    rewrite Hloop. reflexivity.
Qed.

(** X9. A negative [load_step] takes both branches: [build_model]
    gets [pretrained=False] and the ActNorm layers are initialised on a
    training batch, because [load_step > 0] fails, and then the checkpoint
    is loaded all the same, because [load_step == 0] fails too; its file
    name carries the sign, [checkpoint_step-0000000k.pth]. *)
Theorem negative_load_step_resumes a e w lp w' :
  load_step a < 0 ->
  main a e w = (Ok lp, w') ->
  checkpoint_path a (load_step a) =
    os_path_join (save a)
      [model_name a;
       "checkpoint_step-" +:+ zfill 8 (pretty (- load_step a)) +:+ ".pth"] /\
  exists ck pre x c post,
    fs w !! checkpoint_path a (load_step a) = Some [CkptChunk ck] /\
    trace w' = trace w ++ pre
      ++ [EvBuildModel false; EvModelTo (use_cuda e);
          EvAdam (learning_rate a);
          EvStepLR (200000 / world_size e) (float_of_Q (1 # 2));
          EvActNormInit; EvForward x c;
          EvAmpInitialize amp_opt_level; EvDistributedDataParallel;
          EvTorchLoad (checkpoint_path a (load_step a))]
      ++ post.
Proof.
  intros Hneg H. split.
  { unfold checkpoint_path, format_09d.
    destruct (Z.ltb_spec (load_step a) 0) as [_|]; [|lia].
    rewrite <- !str_app_assoc. reflexivity. }
  apply main_prefix in H
    as (mk & act & res & st & lp0 & w3 & _ & _ & Hact & _ & _ & _ & _ & _ & _
        & _ & _ & Hres & _ & Ht & Hloop).
  destruct Hact as [[Hpos _]|(_ & x & c & ->)]; [lia|].
  destruct Hres as [[Hz _]|(_ & ck & m & o & ltl & ll & Hck & _ & _ & -> & ->)];
    [lia|].
  apply epoch_loop_shape in Hloop as (ds & _ & Ht').
  exists ck, (fst (setup_events a e) ++ mk ++ snd (setup_events a e)), x, c,
    (model_load_events (ck_state_dict ck) (st_model st)
       ++ [EvOptimizerLoad; EvSchedulerLoad;
           EvNpLoad (train_loss_path a); EvNpLoad (eval_loss_path a)]
       ++ concat ds).
  split; [exact Hck|].
  rewrite Ht', Ht. unfold build_part, resume_events.
  destruct (Z.gtb_spec (load_step a) 0) as [|_]; [lia|].
  repeat first [progress simpl | rewrite <- !app_assoc]. reflexivity.
Qed.

End WholeRuns.

(** ** Loads that fail, and the fallback dictionary *)

Section LoadFailures.
Context {L : TorchLib}.

(** X10. The failures of [load_checkpoint]: a missing file raises
    [FileNotFoundError] after the [torch.load] attempt; when the fallback
    dictionary is rejected too, the second [RuntimeError] propagates and
    neither the optimizer nor the scheduler is loaded; a rejected optimizer
    state raises after the model has been loaded.  No file changes in any of
    these cases, and a resume ends with the same exception. *)
Theorem load_checkpoint_failures a step st w :
  let path := checkpoint_path a step in
  (fs w !! path = None ->
   exists w', load_checkpoint a step st w = (Raise FileNotFoundError, w') /\
              fs w' = fs w /\ trace w' = trace w ++ [EvTorchLoad path]) /\
  (forall ck,
     fs w !! path = Some [CkptChunk ck] ->
     model_load_state_dict (ck_state_dict ck) (st_model st) = None ->
     model_load_state_dict (strip_module_prefix (ck_state_dict ck))
                           (st_model st) = None ->
     exists w', load_checkpoint a step st w = (Raise RuntimeError, w') /\
                fs w' = fs w /\
                trace w' = trace w
                  ++ [EvTorchLoad path;
                      EvModelLoadStateDict (ck_state_dict ck);
                      EvModelLoadStateDict
                        (strip_module_prefix (ck_state_dict ck))]) /\
  (forall ck m,
     fs w !! path = Some [CkptChunk ck] ->
     model_loaded (ck_state_dict ck) (st_model st) = Some m ->
     opt_load_state_dict (ck_optimizer ck) (st_optimizer st) = None ->
     exists w', load_checkpoint a step st w = (Raise ValueError, w') /\
                fs w' = fs w /\
                trace w' = trace w ++ [EvTorchLoad path]
                  ++ model_load_events (ck_state_dict ck) (st_model st)
                  ++ [EvOptimizerLoad]) /\
  (forall x w',
     load_step a <> 0 ->
     load_checkpoint a (load_step a) st w = (Raise x, w') ->
     fresh_or_resume a st w = (Raise x, w')).
Proof.
  intros path. split; [|split; [|split]].
  - intros Hf. unfold load_checkpoint, torch_load, bind, emit, read_file.
    simpl. fold path. rewrite Hf. eexists. split; [reflexivity|]. simpl. auto.
  - intros ck Hf H1 H2. unfold load_checkpoint.
    rewrite (bind_run _ _ _ _ _ (torch_load_run _ _ _ Hf)).
    unfold bind, try_except_RuntimeError, load_model_state, bind, emit.
    simpl. rewrite H1. simpl. rewrite H2. simpl.
    eexists. split; [reflexivity|]. simpl. split; [reflexivity|].
    rewrite <- !app_assoc. reflexivity.
  - intros ck m Hf Hm Ho. unfold load_checkpoint.
    rewrite (bind_run _ _ _ _ _ (torch_load_run _ _ _ Hf)).
    unfold model_loaded, model_load_events in *.
    unfold bind, try_except_RuntimeError, load_model_state, bind, emit.
    simpl. destruct (model_load_state_dict (ck_state_dict ck) (st_model st)).
    + simpl. rewrite Ho. eexists. split; [reflexivity|]. simpl.
      split; [reflexivity|]. rewrite <- !app_assoc. reflexivity.
    + simpl. rewrite Hm. simpl. rewrite Ho. eexists.
      split; [reflexivity|]. simpl.
      split; [reflexivity|]. rewrite <- !app_assoc. reflexivity.
  - intros x w' Hl H. unfold fresh_or_resume.
    destruct (Z.eqb_spec (load_step a) 0) as [|_]; [contradiction|].
    unfold bind at 1. rewrite H. reflexivity.
Qed.

(** X11. The fallback dictionary of [load_checkpoint] has each key
    once and no more entries than the stored one; the value under a key is
    that of the last stored entry whose key, without its first seven
    characters, is this key.  So two stored keys that differ only in their
    first seven characters collapse into one entry, and the later value
    wins. *)
Theorem strip_module_prefix_last_wins (sd : list (string * tensor)) :
  NoDup (map fst (strip_module_prefix sd)) /\
  (length (strip_module_prefix sd) <= length sd)%nat /\
  (forall k, dict_get k (strip_module_prefix sd) = last_stripped k sd) /\
  (forall k1 v1 k2 v2 rest,
     sd = rest ++ [(k1, v1); (k2, v2)] ->
     str_from 7 k1 = str_from 7 k2 ->
     dict_get (str_from 7 k2) (strip_module_prefix sd) = Some v2 /\
     (length (strip_module_prefix sd) < length sd)%nat).
Proof.
  unfold strip_module_prefix, last_stripped.
  split; [apply strip_fold_unique; constructor|].
  split; [apply (strip_fold_length sd [])|].
  split; [intros k; apply (strip_fold_get sd [] k)|].
  intros k1 v1 k2 v2 rest -> Heq. split.
  - rewrite strip_fold_get, fold_left_app. cbn [fold_left fst snd].
    rewrite String.eqb_refl. reflexivity.
  - rewrite fold_left_app. cbn [fold_left fst snd]. rewrite length_app.
    cbn [length].
    set (d := fold_left _ rest []).
    pose proof (strip_fold_length rest []) as Hlen. fold d in Hlen.
    cbn [length] in Hlen.
    pose proof (dict_set_length (str_from 7 k1) v1 d) as H1.
    assert (In (str_from 7 k2)
              (map fst (dict_set (str_from 7 k1) v1 d))) as Hin.
    { rewrite dict_set_keys. left. congruence. }
    assert (forall (d' : list (string * tensor)) k v,
              In k (map fst d') -> length (dict_set k v d') = length d')
      as Hsame.
    { clear. induction d' as [|[k0 v0] d' IH]; simpl; intros k v Hin;
        [contradiction|].
      destruct (String.eqb_spec k k0) as [->|Hne]; simpl; [reflexivity|].
      f_equal. apply IH. destruct Hin; [congruence|assumption]. }
    rewrite (Hsame _ _ v2 Hin). lia.
Qed.

End LoadFailures.

(** ** The losses returned *)

Section Losses.
Context {L : TorchLib}.





End Losses.

(** ** The directories *)

Section Directories.
Context {L : TorchLib}.






End Directories.

(** ** The best loss *)

Section BestLoss.
Context {L : TorchLib}.



End BestLoss.

(** ** Resuming after an epoch *)

Section Resume.
Context {L : TorchLib}.

Lemma improving_epoch_saves a e epoch lp lp' w w' el :
  local_rank a <= 0 ->
  epoch_body a e epoch lp w = (Ok lp', w') ->
  last (list_loss lp') = Some el ->
  fgt (test_loss lp) el = true ->
  list_loss lp' = list_loss lp ++ [el] /\
  exists m,
    fs w' !! checkpoint_path a (global_step (lp_state lp')) =
      Some [CkptChunk (checkpoint_of m (st_optimizer (lp_state lp'))
                         (st_scheduler (lp_state lp'))
                         (global_step (lp_state lp')) epoch)].
Proof.
  intros Hr H Hlast Hgt.
  apply epoch_body_ok in H
    as (tr & w1 & ev & w2 & gate & w3 & w4 & _ & _ & Hg & Hp & Hfs & _ & _
        & ->); [|exact Hr].
  simpl in Hlast. rewrite last_snoc in Hlast. injection Hlast as Hel.
  rewrite Hel in *.
  apply save_if_better_ok in Hg
    as ((Ho & Hs & Hgs & _) & _ & _ & _ & d & _ & Hyes & _).
  apply persist_losses_ok in Hp as (_ & _ & _ & _ & _ & _ & _ & Hf4).
  destruct (Hyes Hgt) as [_ Hck]. simpl.
  split; [reflexivity|]. exists (st_model (snd ev)).
  rewrite Hfs, Hf4 by (rewrite checkpoint_path_last; discriminate).
  rewrite Ho, Hs, Hgs. exact Hck.
Qed.

(** X15. After an epoch of the first process whose evaluation loss is
    below the best so far, the checkpoint file of the new [global_step]
    holds the optimizer state, the scheduler, this [global_step] and the
    number of this epoch, and the best loss is the new loss; otherwise that
    file is as it was before the epoch and the best loss is unchanged. *)
Theorem epoch_checkpoint a e epoch lp lp' w w' :
  local_rank a <= 0 ->
  epoch_body a e epoch lp w = (Ok lp', w') ->
  let st' := lp_state lp' in
  let path := checkpoint_path a (global_step st') in
  exists el,
    list_loss lp' = list_loss lp ++ [el] /\
    (fgt (test_loss lp) el = true ->
     test_loss lp' = el /\
     exists m,
       fs w' !! path =
         Some [CkptChunk (checkpoint_of m (st_optimizer st') (st_scheduler st')
                            (global_step st') epoch)]) /\
    (fgt (test_loss lp) el = false ->
     test_loss lp' = test_loss lp /\ fs w' !! path = fs w !! path).
Proof.
  intros Hr H st' path. subst st' path.
  apply epoch_body_ok in H
    as (tr & w1 & ev & w2 & gate & w3 & w4 & Ht & He & Hg & Hp & Hfs & _ & _
        & ->); [|exact Hr].
  apply train_ok in Ht
    as (steps & _ & _ & _ & _ & _ & _ & _ & _ & Hf1 & _).
  apply evaluate_ok in He as (fw & _ & _ & Hf2 & _).
  apply save_if_better_ok in Hg
    as ((Ho & Hs & Hgs & _) & _ & Hb & _ & d & _ & Hyes & Hno).
  apply persist_losses_ok in Hp as (_ & _ & _ & _ & _ & _ & _ & Hf4).
  exists (fst ev). simpl. split; [reflexivity|].
  assert (forall step, fs w' !! checkpoint_path a step
                       = fs w3 !! checkpoint_path a step) as Hkeep.
  { intros step. rewrite Hfs. apply Hf4; rewrite checkpoint_path_last;
      discriminate. }
  unfold better in Hb. split.
  - intros Hgt. rewrite Hgt in Hb. split; [exact Hb|].
    destruct (Hyes Hgt) as [_ Hck]. exists (st_model (snd ev)).
    rewrite Hkeep, Ho, Hs, Hgs. exact Hck.
  - intros Hgt. rewrite Hgt in Hb. split; [exact Hb|].
    destruct (Hno Hgt) as [_ Hsame].
    rewrite Hkeep, Hsame, Hf2, Hf1. reflexivity.
Qed.

Lemma np_load_run p xs w :
  fs w !! p = Some [NpyChunk xs] ->
  np_load p w =
    (Ok xs, {| fs := fs w; dirs := dirs w; rng_state := rng_state w;
               trace := trace w ++ [EvNpLoad p] |}).
Proof.
  intros H. unfold np_load, bind, emit, read_file. simpl. rewrite H.
  reflexivity.
Qed.

Lemma fresh_or_resume_run a st ck m o ltl ll w :
  load_step a <> 0 ->
  fs w !! checkpoint_path a (load_step a) = Some [CkptChunk ck] ->
  model_loaded (ck_state_dict ck) (st_model st) = Some m ->
  opt_load_state_dict (ck_optimizer ck) (st_optimizer st) = Some o ->
  fs w !! train_loss_path a = Some [NpyChunk ltl] ->
  fs w !! eval_loss_path a = Some [NpyChunk ll] ->
  slice_to (ck_global_epoch ck) ll <> [] ->
  exists w',
    fresh_or_resume a st w = (Ok (resumed_loop ck m o ltl ll st), w') /\
    fs w' = fs w.
Proof.
  intros Hl Hck Hm Ho Hf1 Hf2 Hne. unfold fresh_or_resume.
  destruct (Z.eqb_spec (load_step a) 0) as [|_]; [contradiction|].
  rewrite (bind_run _ _ _ _ _
             (load_checkpoint_run a (load_step a) st ck m o w Hck Hm Ho)).
  erewrite bind_run; [|apply np_load_run; simpl; exact Hf1].
  erewrite bind_run; [|apply np_load_run; simpl; exact Hf2].
  unfold np_min_of, bind. cbn [global_epoch restored set_globals].
  destruct (slice_to (ck_global_epoch ck) ll) as [|x xs] eqn:Hs;
    [contradiction|].
  eexists. split; [unfold ret, resumed_loop; rewrite Hs|]; reflexivity.
Qed.

(** X16. A run can be resumed from what an improving epoch left on
    disk: with [load_step] set to the [global_step] the epoch ended with,
    and the same [save], [loss] and [model_name], the resume finds the
    checkpoint and both histories and succeeds whenever the library accepts
    the stored model and optimizer state; it continues with the scheduler
    and [global_step] of the epoch, at the next epoch, with the histories
    cut to the epoch's number, which are the histories in memory when each
    epoch so far added one entry. *)
Theorem resume_after_epoch a e epoch lp lp' w w' el a' :
  local_rank a <= 0 ->
  epoch_body a e epoch lp w = (Ok lp', w') ->
  last (list_loss lp') = Some el ->
  fgt (test_loss lp) el = true ->
  0 < epoch ->
  save a' = save a -> model_name a' = model_name a -> loss a' = loss a ->
  load_step a' = global_step (lp_state lp') -> load_step a' <> 0 ->
  exists ck,
    fs w' !! checkpoint_path a' (load_step a') = Some [CkptChunk ck] /\
    forall st m o w2,
      fs w2 = fs w' ->
      model_loaded (ck_state_dict ck) (st_model st) = Some m ->
      opt_load_state_dict (ck_optimizer ck) (st_optimizer st) = Some o ->
      exists lp2 w3,
        fresh_or_resume a' st w2 = (Ok lp2, w3) /\
        st_scheduler (lp_state lp2) = st_scheduler (lp_state lp') /\
        global_step (lp_state lp2) = global_step (lp_state lp') /\
        epoch_range a' (lp_state lp2) = range (epoch + 1) (epochs a' + 1) /\
        list_train_loss lp2 = slice_to epoch (list_train_loss lp') /\
        list_loss lp2 = slice_to epoch (list_loss lp') /\
        (Z.of_nat (length (list_train_loss lp')) = epoch ->
         list_train_loss lp2 = list_train_loss lp') /\
        (Z.of_nat (length (list_loss lp')) = epoch ->
         list_loss lp2 = list_loss lp').
Proof.
  intros Hr H Hlast Hgt Hep Hsave Hname Hloss Hstep Hnz.
  assert (forall step, checkpoint_path a' step = checkpoint_path a step)
    as Hpath.
  { intros step. unfold checkpoint_path. rewrite Hsave, Hname. reflexivity. }
  assert (train_loss_path a' = train_loss_path a) as Hp1.
  { unfold train_loss_path. rewrite Hloss, Hname. reflexivity. }
  assert (eval_loss_path a' = eval_loss_path a) as Hp2.
  { unfold eval_loss_path. rewrite Hloss, Hname. reflexivity. }
  destruct (improving_epoch_saves a e epoch lp lp' w w' el Hr H Hlast Hgt)
    as (Hll & m0 & Hck).
  apply epoch_rank0_files in H as (tl & el' & _ & _ & Hf1 & Hf2 & _);
    [|exact Hr].
  eexists. split; [rewrite Hpath, Hstep; exact Hck|].
  intros st m o w2 Hfs Hm Ho.
  destruct (fresh_or_resume_run a' st
              (checkpoint_of m0 (st_optimizer (lp_state lp'))
                 (st_scheduler (lp_state lp')) (global_step (lp_state lp'))
                 epoch)
              m o (list_train_loss lp') (list_loss lp') w2 Hnz)
    as (w3 & Hrun & _).
  - rewrite Hfs, Hpath, Hstep. exact Hck.
  - exact Hm.
  - exact Ho.
  - rewrite Hfs, Hp1. exact Hf1.
  - rewrite Hfs, Hp2. exact Hf2.
  - simpl. rewrite Hll. unfold slice_to.
    destruct (Z.leb_spec 0 epoch) as [_|]; [|lia].
    destruct (Z.to_nat epoch) as [|n] eqn:Hn; [lia|].
    destruct (list_loss lp); discriminate.
  - eexists _, w3. split; [exact Hrun|]. simpl.
    split; [reflexivity|]. split; [reflexivity|]. split; [reflexivity|].
    split; [reflexivity|]. split; [reflexivity|].
    unfold slice_to. destruct (Z.leb_spec 0 epoch) as [_|]; [|lia].
    split; intros <-; rewrite Nat2Z.id; apply firstn_all.
Qed.

End Resume.

(** ** Concrete runs *)

Section ConcreteRuns.

(** A run that evaluates to a result did not raise. *)
Lemma run_fails_not {L : TorchLib} {A} (m : M A) w x w' :
  is_ok (fst (m w)) = true -> m w = (Raise x, w') -> False.
Proof. intros Hok E. rewrite E in Hok. discriminate. Qed.

(** A save at step 2 of epoch 1 followed by a load of step 2. *)
Lemma checkpoint_roundtrip_witness :
  let w1 := snd (save_checkpoint Toy.resume_args [("module.w"%string, 7)]
                   ((1 # 1000)%Q, 2) (ck_scheduler Toy.ckpt) 2 1
                   Toy.empty_world) in
  exists st' w3,
    load_checkpoint Toy.resume_args 2 Toy.state0 w1 = (Ok st', w3) /\
    st_model st' = [("module.w"%string, 7)] /\
    global_step st' = 2 /\ global_epoch st' = 1 /\
    epoch_range Toy.resume_args st' = [2].
Proof.
  intros w1.
  destruct (checkpoint_roundtrip Toy.resume_args [("module.w"%string, 7)]
              ((1 # 1000)%Q, 2) (ck_scheduler Toy.ckpt) 2 1
              Toy.empty_world w1 Toy.state0
              [("module.w"%string, 7)] ((1 # 1000)%Q, 2)
              eq_refl eq_refl eq_refl)
    as (_ & _ & (st' & w3 & Hl & Hm & _ & _ & Hs & He & Hr) & _).
  exists st', w3. rewrite Hr. auto.
Defined.

(** A checkpoint whose keys fit only after the first seven characters are
    dropped. *)
Lemma load_checkpoint_fallback_witness :
  exists st' w',
    load_checkpoint Toy.resume_args 2 Toy.state0 (Toy.with_fs Toy.bare_fs) = (Ok st', w') /\
    st_model st' = [("module.w"%string, 7)] /\
    st_optimizer st' = ((1 # 1000)%Q, 2) /\
    global_step st' = 2 /\ global_epoch st' = 1.
Proof.
  destruct (load_checkpoint_fallback Toy.resume_args 2 Toy.state0 Toy.bare_ckpt
              ((1 # 1000)%Q, 2) (Toy.with_fs Toy.bare_fs)
              ltac:(vm_compute; reflexivity) eq_refl)
    as (_ & Hfb & _).
  destruct (Hfb [("module.w"%string, 7)] eq_refl eq_refl)
    as (st' & w' & Hl & Hm & Ho & _ & Hs & He & _).
  exists st', w'. auto.
Defined.




(** The second of two processes. *)
Lemma rank_gating_witness :
  fs (snd (main Toy.worker_args Toy.two Toy.empty_world)) = ∅ /\
  dirs (snd (main Toy.worker_args Toy.two Toy.empty_world)) = ∅.
Proof.
  destruct (main Toy.worker_args Toy.two Toy.empty_world) as [r w'] eqn:E.
  destruct (rank_gating Toy.worker_args Toy.two) as (H & _).
  destruct (H eq_refl _ _ _ E) as (Hf & Hd & _).
  simpl. split; [exact Hf|exact Hd].
Defined.








End ConcreteRuns.

(** ** More concrete runs *)

Section MoreRuns.



Lemma checkpoints_do_not_collide_witness :
  let w1 := snd (save_checkpoint Toy.fresh_args [("module.w"%string, 1)]
                   ((1 # 1000)%Q, 2) (ck_scheduler Toy.ckpt) 2 1
                   Toy.empty_world) in
  let w2 := snd (save_checkpoint Toy.fresh_args [("module.w"%string, 2)]
                   ((1 # 1000)%Q, 4) (ck_scheduler Toy.ckpt) 4 2 w1) in
  fs w2 !! checkpoint_path Toy.fresh_args 2 =
    Some [CkptChunk (@checkpoint_of Toy.lib [("module.w"%string, 1)]
                       ((1 # 1000)%Q, 2) (ck_scheduler Toy.ckpt) 2 1)].
Proof.
  intros w1 w2.
  destruct (checkpoints_do_not_collide Toy.fresh_args
              [("module.w"%string, 1)] ((1 # 1000)%Q, 2)
              (ck_scheduler Toy.ckpt) 2 1
              [("module.w"%string, 2)] ((1 # 1000)%Q, 4)
              (ck_scheduler Toy.ckpt) 4 2 Toy.empty_world ltac:(lia))
    as (_ & H & _).
  exact H.
Defined.

Lemma train_outcome_witness :
  (exists w',
     train Toy.fresh_args Toy.two 1 Toy.starved_state Toy.empty_world
       = (Raise ZeroDivisionError, w')) /\
  (exists r w',
     train Toy.fresh_args Toy.two 1 Toy.state0 Toy.empty_world = (Ok r, w')).
Proof.
  destruct (train_outcome Toy.fresh_args Toy.two 1 Toy.starved_state
              Toy.empty_world) as [H1 _].
  destruct (train_outcome Toy.fresh_args Toy.two 1 Toy.state0
              Toy.empty_world) as [_ H2].
  split.
  - destruct (H1 eq_refl) as (w' & E & _). exists w'. exact E.
  - apply H2; [vm_compute; discriminate|simpl; lia].
Defined.

Lemma evaluate_outcome_witness :
  (exists w',
     evaluate Toy.fresh_args Toy.two Toy.starved_state Toy.empty_world
       = (Raise ZeroDivisionError, w')) /\
  (exists r w',
     evaluate Toy.fresh_args Toy.two Toy.state0 Toy.empty_world = (Ok r, w') /\
     global_step (snd r) = 0 /\ fs w' = ∅).
Proof.
  destruct (evaluate_outcome Toy.fresh_args Toy.two Toy.starved_state
              Toy.empty_world) as [H1 _].
  destruct (evaluate_outcome Toy.fresh_args Toy.two Toy.state0
              Toy.empty_world) as [_ H2].
  split.
  - destruct (H1 eq_refl) as (w' & E & _). exists w'. exact E.
  - destruct H2 as (r & w' & E & _ & _ & Hs & _ & Hf & _);
      [vm_compute; discriminate|].
    exists r, w'. auto.
Defined.

Lemma epoch_file_footprint_witness :
  exists lp' w',
    epoch_body Toy.fresh_args Toy.two 1 Toy.loop0 Toy.empty_world
      = (Ok lp', w') /\
    global_step (lp_state lp') = 2 /\
    fs w' !! "./params/flowavenet/checkpoint_step000000001.pth" = None.
Proof.
  destruct (epoch_body Toy.fresh_args Toy.two 1 Toy.loop0 Toy.empty_world)
    as [[lp'|x] w'] eqn:E;
    [|exfalso; refine (run_fails_not _ _ _ _ _ E); vm_compute; reflexivity].
  destruct (epoch_file_footprint Toy.fresh_args Toy.two 1 _ _ _ _
              ltac:(simpl; lia) E) as [Hs Hf].
  exists lp', w'. split; [reflexivity|]. split; [exact Hs|].
  rewrite Hf; [reflexivity|..]; vm_compute; discriminate.
Defined.

Lemma log_accumulates_witness :
  exists lp' w',
    for_each (epoch_body Toy.fresh_args Toy.two) [1; 2] Toy.loop0
      Toy.empty_world = (Ok lp', w') /\
    length (list_loss lp') = 2%nat /\
    length (default [] (fs w' !! log_path Toy.fresh_args)) = 2%nat.
Proof.
  destruct (for_each (epoch_body Toy.fresh_args Toy.two) [1; 2] Toy.loop0
              Toy.empty_world) as [[lp'|x] w'] eqn:E;
    [|exfalso; refine (run_fails_not _ _ _ _ _ E); vm_compute; reflexivity].
  destruct (log_accumulates Toy.fresh_args Toy.two [1; 2]
              ltac:(simpl; lia) _ _ _ _ E)
    as (losses & Hlen & _ & Hl & Hlog & _).
  exists lp', w'. split; [reflexivity|]. split.
  - rewrite Hl, length_app, length_map, Hlen. reflexivity.
  - rewrite Hlog, length_app, length_map, length_zip, Hlen. reflexivity.
Defined.

Lemma finished_run_trains_nothing_witness :
  exists lp w',
    main Toy.idle_args Toy.two Toy.empty_world = (Ok lp, w') /\
    fs w' = ∅.
Proof.
  destruct (main Toy.idle_args Toy.two Toy.empty_world)
    as [[lp|x] w'] eqn:E;
    [|exfalso; refine (run_fails_not _ _ _ _ _ E); vm_compute; reflexivity].
  destruct (finished_run_trains_nothing Toy.idle_args Toy.two _ _ _ E)
    as [Hge Hdone].
  exists lp, w'. split; [reflexivity|].
  destruct Hge as [[_ Hge]|[Hl _]]; [|exfalso; apply Hl; reflexivity].
  destruct Hdone as [Hf _]; [rewrite Hge; simpl; lia|exact Hf].
Defined.

Lemma history_lengths_witness :
  exists lp w',
    main Toy.fresh_args Toy.two Toy.empty_world = (Ok lp, w') /\
    length (list_train_loss lp) = 2%nat /\ length (list_loss lp) = 2%nat.
Proof.
  destruct (main Toy.fresh_args Toy.two Toy.empty_world)
    as [[lp|x] w'] eqn:E;
    [|exfalso; refine (run_fails_not _ _ _ _ _ E); vm_compute; reflexivity].
  destruct (history_lengths Toy.fresh_args Toy.two _ _ _ eq_refl E)
    as [Hfresh _].
  destruct (Hfresh eq_refl) as (H1 & H2 & _).
  exists lp, w'. split; [reflexivity|]. split; assumption.
Defined.

Lemma step_counter_matches_scheduler_witness :
  exists lp w',
    main Toy.fresh_args Toy.two Toy.empty_world = (Ok lp, w') /\
    global_step (lp_state lp) = last_epoch (st_scheduler (lp_state lp)).
Proof.
  destruct (main Toy.fresh_args Toy.two Toy.empty_world)
    as [[lp|x] w'] eqn:E;
    [|exfalso; refine (run_fails_not _ _ _ _ _ E); vm_compute; reflexivity].
  destruct (step_counter_matches_scheduler Toy.fresh_args Toy.two _ _ _ E)
    as [Hfresh _].
  exists lp, w'. split; [reflexivity|]. apply Hfresh. reflexivity.
Defined.

Lemma negative_load_step_resumes_witness :
  exists lp w',
    main Toy.neg_args Toy.two (Toy.with_fs Toy.neg_fs) = (Ok lp, w') /\
    checkpoint_path Toy.neg_args (-2)
      = "./params/flowavenet/checkpoint_step-00000002.pth" /\
    In EvActNormInit (trace w') /\
    In (EvTorchLoad "./params/flowavenet/checkpoint_step-00000002.pth")
       (trace w').
Proof.
  destruct (main Toy.neg_args Toy.two (Toy.with_fs Toy.neg_fs))
    as [[lp|x] w'] eqn:E;
    [|exfalso; refine (run_fails_not _ _ _ _ _ E); vm_compute; reflexivity].
  destruct (negative_load_step_resumes Toy.neg_args Toy.two _ _ _
              ltac:(simpl; lia) E)
    as (Hp & ck & pre & x & c & post & _ & Ht).
  exists lp, w'. split; [reflexivity|]. split; [reflexivity|].
  rewrite Ht. simpl. split.
  - apply in_or_app. right. simpl. auto 10.
  - apply in_or_app. right. simpl. auto 20.
Defined.

Lemma load_checkpoint_failures_witness :
  exists w',
    load_checkpoint Toy.resume_args 2 Toy.state0 Toy.empty_world
      = (Raise FileNotFoundError, w') /\
    fresh_or_resume Toy.resume_args Toy.state0 Toy.empty_world
      = (Raise FileNotFoundError, w').
Proof.
  destruct (load_checkpoint_failures Toy.resume_args 2 Toy.state0
              Toy.empty_world) as (Hmiss & _ & _ & Hprop).
  destruct (Hmiss eq_refl) as (w' & E & _).
  exists w'. split; [exact E|].
  apply Hprop; [simpl; lia|exact E].
Defined.

Lemma strip_module_prefix_last_wins_witness :
  dict_get "w" (@strip_module_prefix Toy.lib Toy.colliding) = Some 2 /\
  (length (@strip_module_prefix Toy.lib Toy.colliding) < 2)%nat.
Proof.
  destruct (@strip_module_prefix_last_wins Toy.lib Toy.colliding)
    as (_ & _ & _ & H).
  apply (H "module.w"%string 1 "MODULE.w"%string 2 []); reflexivity.
Defined.




Lemma epoch_checkpoint_witness :
  exists lp' w' el,
    epoch_body Toy.fresh_args Toy.two 1 Toy.loop0 Toy.empty_world
      = (Ok lp', w') /\
    list_loss lp' = [el] /\
    (Toy.qgt 100%Q el = true ->
     exists ck,
       fs w' !! checkpoint_path Toy.fresh_args (global_step (lp_state lp'))
         = Some [CkptChunk ck] /\
       ck_global_epoch ck = 1).
Proof.
  destruct (epoch_body Toy.fresh_args Toy.two 1 Toy.loop0 Toy.empty_world)
    as [[lp'|x] w'] eqn:E;
    [|exfalso; refine (run_fails_not _ _ _ _ _ E); vm_compute; reflexivity].
  destruct (epoch_checkpoint Toy.fresh_args Toy.two 1 _ _ _ _
              ltac:(simpl; lia) E) as (el & Hl & Hyes & _).
  exists lp', w', el. split; [reflexivity|]. split; [exact Hl|].
  intros Hgt. destruct (Hyes Hgt) as (_ & m & Hck).
  eexists. split; [exact Hck|reflexivity].
Defined.

Lemma resume_after_epoch_witness :
  exists lp' w' ck,
    epoch_body Toy.fresh_args Toy.two 1 Toy.loop0 Toy.empty_world
      = (Ok lp', w') /\
    fs w' !! checkpoint_path Toy.resume_args 2 = Some [CkptChunk ck] /\
    exists lp2 w3,
      fresh_or_resume Toy.resume_args Toy.state0 w' = (Ok lp2, w3) /\
      global_step (lp_state lp2) = global_step (lp_state lp') /\
      epoch_range Toy.resume_args (lp_state lp2) = [2] /\
      list_loss lp2 = list_loss lp'.
Proof.
  destruct (epoch_body Toy.fresh_args Toy.two 1 Toy.loop0 Toy.empty_world)
    as [[lp'|x] w'] eqn:E;
    [|exfalso; refine (run_fails_not _ _ _ _ _ E); vm_compute; reflexivity].
  assert (lp' = match fst (epoch_body Toy.fresh_args Toy.two 1 Toy.loop0
                             Toy.empty_world) with
                | Ok v => v
                | Raise _ => Toy.loop0
                end) as Hlp by (rewrite E; reflexivity).
  assert (w' = snd (epoch_body Toy.fresh_args Toy.two 1 Toy.loop0
                      Toy.empty_world)) as Hw by (rewrite E; reflexivity).
  assert (last (list_loss lp') = Some 3%Q) as Hlast
    by (rewrite Hlp; vm_compute; reflexivity).
  assert (load_step Toy.resume_args = global_step (lp_state lp')) as Hstep
    by (rewrite Hlp; vm_compute; reflexivity).
  assert (length (list_loss lp') = 1%nat) as Hlen
    by (rewrite Hlp; vm_compute; reflexivity).
  destruct (resume_after_epoch Toy.fresh_args Toy.two 1 Toy.loop0 lp'
              Toy.empty_world w' 3%Q Toy.resume_args
              ltac:(simpl; lia) E Hlast eq_refl
              ltac:(lia) eq_refl eq_refl eq_refl Hstep ltac:(simpl; lia))
    as (ck & Hck & Hres).
  assert (match fs w' !! checkpoint_path Toy.resume_args
                           (load_step Toy.resume_args) with
          | Some [CkptChunk c] => (ck_state_dict c, ck_optimizer c)
          | _ => ([], (0%Q, 0))
          end = ([("module.w"%string, 2)], ((1 # 1000)%Q, 2))) as Hval
    by (rewrite Hw; vm_compute; reflexivity).
  rewrite Hck in Hval. injection Hval as Hsd Hopt.
  destruct (Hres Toy.state0 [("module.w"%string, 2)] ((1 # 1000)%Q, 2)
              w' eq_refl)
    as (lp2 & w3 & Hrun & _ & Hgs & Hrange & _ & _ & _ & Hll).
  { rewrite Hsd. reflexivity. }
  { rewrite Hopt. reflexivity. }
  exists lp', w', ck. split; [reflexivity|]. split; [exact Hck|].
  exists lp2, w3. split; [exact Hrun|]. split; [exact Hgs|].
  split; [rewrite Hrange; reflexivity|].
  apply Hll. rewrite Hlen. reflexivity.
Defined.

End MoreRuns.
